(** * Papersio front end: the research session of [app/page.tsx] and its components

    A shallow embedding of the TypeScript/React front end:
    - [JS]: the few built-ins of the JavaScript runtime the code calls
      ([trim], [toLowerCase], [includes], [findIndex], [Math.round], [||]);
    - [Research]: the records of [types/research.ts];
    - [LoadingState]: [components/loading_state.tsx];
    - [ResultsDisplay]: [components/results_display.tsx];
    - [PDFExportButton]: the export button component;
    - [SearchBar]: [components/search_bar.tsx];
    - [Home]: [app/page.tsx], its React state and the handlers it installs
      on the WebSocket;
    - [App]: the page together with its mounted children and the browser's
      WebSocket objects, as an event-driven transition system.

    Strings are sequences of code units; the embedding covers the code units
    U+0000..U+00FF (one [ascii] per code unit), on which [trim] and
    [toLowerCase] are written out in full. *)

From Stdlib Require Import ZArith QArith Qround Lia Bool Ascii String.
From stdpp Require Import base option list strings sorting.

Local Open Scope Z_scope.

(** ** The JavaScript built-ins used by the code *)
Module JS.

(** WhiteSpace and LineTerminator code units below U+0100:
    TAB, LF, VT, FF, CR, SPACE and NO-BREAK SPACE. *)
Definition isWhiteSpace (c : ascii) : bool :=
  let n := Z.of_N (N_of_ascii c) in
  ((9 <=? n) && (n <=? 13)) || (n =? 32) || (n =? 160).

Fixpoint trimStart (s : string) : string :=
  match s with
  | String c r => if isWhiteSpace c then trimStart r else s
  | EmptyString => EmptyString
  end.

Definition trimEnd (s : string) : string :=
  String.rev (trimStart (String.rev s)).

(** [String.prototype.trim] *)
Definition trim (s : string) : string := trimEnd (trimStart s).

(** Lower-casing of one code unit below U+0100: A..Z, and the capital
    letters U+00C0..U+00DE except the multiplication sign U+00D7, move up
    by 32; every other code unit is its own lower case. *)
Definition toLowerCaseUnit (c : ascii) : ascii :=
  let n := Z.of_N (N_of_ascii c) in
  if ((65 <=? n) && (n <=? 90))
     || ((192 <=? n) && (n <=? 222) && negb (n =? 215))
  then ascii_of_N (Z.to_N (n + 32))
  else c.

(** [String.prototype.toLowerCase] *)
Fixpoint toLowerCase (s : string) : string :=
  match s with
  | String c r => String (toLowerCaseUnit c) (toLowerCase r)
  | EmptyString => EmptyString
  end.

(** [s.startsWith(t)] *)
Fixpoint startsWith (s t : string) {struct t} : bool :=
  match t, s with
  | EmptyString, _ => true
  | String b t', String a s' => bool_decide (a = b) && startsWith s' t'
  | String _ _, EmptyString => false
  end.

(** [s.includes(t)]: [t] occurs in [s] at some position. *)
Fixpoint includes (s t : string) : bool :=
  startsWith s t ||
  match s with
  | String _ s' => includes s' t
  | EmptyString => false
  end.

(** [Array.prototype.findIndex]: the index of the first element that
    satisfies [p], and -1 when there is none. *)
Fixpoint findIndexFrom {A} (p : A -> bool) (l : list A) (i : Z) : Z :=
  match l with
  | [] => -1
  | x :: r => if p x then i else findIndexFrom p r (i + 1)
  end.

Definition findIndex {A} (p : A -> bool) (l : list A) : Z :=
  findIndexFrom p l 0.

(** [Math.round]: the nearest integer, halves going up.  The argument is an
    exact rational here.  The code rounds the doubles nearest to k*100/11
    for k in 1..11; each of these rationals is an integer or at least 1/22
    away from the nearest half, so the double rounds to the same integer. *)
Definition Math_round (x : Q) : Z := Qfloor (x + (1 # 2)).

(** [x || d] on an optional string: [undefined] and the empty string are
    falsy. *)
Definition or_string (x : option string) (d : string) : string :=
  match x with
  | Some s => if bool_decide (s = "") then d else s
  | None => d
  end.

(** [x || d] on an optional array: every array is truthy. *)
Definition or_array {A} (x : option (list A)) (d : list A) : list A :=
  match x with
  | Some l => l
  | None => d
  end.

(** [s] without its prefix [t], when [t] is a prefix of [s]. *)
Fixpoint dropPrefix (s t : string) {struct t} : option string :=
  match t, s with
  | EmptyString, _ => Some s
  | String b t', String a s' =>
      if bool_decide (a = b) then dropPrefix s' t' else None
  | String _ _, EmptyString => None
  end.

(** [s.replace(/^pat/, rep)] for a literal [pat]: the pattern is anchored at
    the start, so at most the prefix is replaced. *)
Definition replaceStart (pat rep s : string) : string :=
  match dropPrefix s pat with
  | Some rest => rep +:+ rest
  | None => s
  end.

End JS.

(** ** [types/research.ts] *)
Module Research.

Record Source := {
  title : string;
  url : string;
  source_type : string;
  authors : option (list string)
}.

Record ResearchResponse := {
  query : string;
  answer : string;
  sources : list Source;
  search_strategy : option string
}.

#[global] Instance Source_eq_dec : EqDecision Source.
Proof. solve_decision. Defined.

#[global] Instance ResearchResponse_eq_dec : EqDecision ResearchResponse.
Proof. solve_decision. Defined.

End Research.

(** ** [components/loading_state.tsx] *)
Module LoadingState.

Definition STAGE_ORDER : list string :=
  [ "checking memory";
    "planning";
    "searching";
    "analyzing";
    "writing";
    "critiquing";
    "revising";
    "re-critiquing";
    "saving";
    "finalizing";
    "finished" ].

Definition stageToProgress (stage : string) : Z :=
  let normalized := JS.toLowerCase (JS.trim stage) in
  let index := JS.findIndex (fun s => JS.includes normalized s) STAGE_ORDER in
  if index =? -1 then 8
  else JS.Math_round
         ((inject_Z (index + 1) / inject_Z (Z.of_nat (length STAGE_ORDER)))
          * 100)%Q.

(** The state React keeps for one mounted [LoadingState]:
    [displayProgress] is the [useState] cell, [deps] the value of
    [progress] the effect last ran with (its dependency array). *)
Record t := {
  deps : Z;
  displayProgress : Z
}.

(** The effect [setDisplayProgress(prev => Math.max(prev, progress))]. *)
Definition effect (progress : Z) (prev : Z) : Z := Z.max prev progress.

(** First render: [useState(progress)], then the effect runs once. *)
Definition mount (status : string) : t :=
  let progress := stageToProgress status in
  {| deps := progress; displayProgress := effect progress progress |}.

(** A later render with a new [status] prop: the effect runs only when
    [progress] differs from the value it last ran with. *)
Definition rerender (status : string) (c : t) : t :=
  let progress := stageToProgress status in
  if progress =? deps c then c
  else {| deps := progress;
          displayProgress := effect progress (displayProgress c) |}.

End LoadingState.

(** ** [components/results_display.tsx] *)
Module ResultsDisplay.
Import Research.

(** [result.sources?.filter(s => s.source_type === 'arxiv') || []]:
    [sources] is an array in every [ResearchResponse] the page builds, and
    the array [filter] returns is truthy, so only the filter remains. *)
Definition arxivSources (result : ResearchResponse) : list Source :=
  filter (fun s => source_type s = "arxiv") (sources result).

Definition webSources (result : ResearchResponse) : list Source :=
  filter (fun s => source_type s = "web") (sources result).

Definition totalSources (result : ResearchResponse) : nat :=
  (length (arxivSources result) + length (webSources result))%nat.

(** Whether rendering the panel returns.  For every web source the JSX
    evaluates [new URL(source.url).hostname], and [new URL] throws on a url
    it cannot parse; [canParse] is the browser's URL parser, telling for
    which strings [new URL] returns. *)
Definition renders (canParse : string -> bool) (result : ResearchResponse) : bool :=
  forallb (fun s => canParse (url s)) (webSources result).

End ResultsDisplay.

(** ** The export button ([PDFExportButton]) *)
Module PDFExportButton.

(** The component's own [useState] cells; [instance] identifies the
    mounted instance the cells belong to. *)
Record t := {
  instance : nat;
  isGenerating : bool;
  error : option string
}.

(** How the awaited part of [handleDownload] ends. *)
Inductive FetchOutcome :=
| Downloaded
    (* response.ok, the blob is saved *)
| NotOk (detail : option string) (statusText : string)
    (* !response.ok, errorData.detail and response.statusText *)
| Thrown (message : string).
    (* fetch rejects or another step throws: err.message *)

Definition mount (i : nat) : t :=
  {| instance := i; isGenerating := false; error := None |}.

(** [handleDownload] up to the first [await]. *)
Definition handleDownload_begin (c : t) : t :=
  {| instance := instance c; isGenerating := true; error := None |}.

(** The message of the error that reaches the [catch] block. *)
Definition thrown (o : FetchOutcome) : option string :=
  match o with
  | Downloaded => None
  | NotOk detail statusText =>
      Some (JS.or_string detail ("PDF generation failed: " +:+ statusText))
  | Thrown message => Some message
  end.

(** [handleDownload] after the [await]: [catch] and [finally]. *)
Definition handleDownload_settle (o : FetchOutcome) (c : t) : t :=
  match thrown o with
  | Some message =>
      {| instance := instance c;
         isGenerating := false;
         error := Some (JS.or_string (Some message) "Failed to generate PDF") |}
  | None =>
      {| instance := instance c; isGenerating := false; error := error c |}
  end.

End PDFExportButton.

(** ** [components/search_bar.tsx] *)
Module SearchBar.

(** [handleKeyDown]: whether the key press calls [onSubmit]. *)
Definition handleKeyDown
    (key : string) (shiftKey : bool) (query : string) (isLoading : bool) : bool :=
  bool_decide (key = "Enter") && negb shiftKey && negb isLoading
  && negb (bool_decide (JS.trim query = "")).

(** [disabled] of the textarea. *)
Definition textareaDisabled (isLoading : bool) : bool := isLoading.

(** [disabled] of the Research button. *)
Definition buttonDisabled (query : string) (isLoading : bool) : bool :=
  isLoading || bool_decide (JS.trim query = "").

End SearchBar.

(** ** The browser's [WebSocket] object, as far as the page uses it *)
Module WebSocket.

Inductive ReadyState := CONNECTING | OPEN | CLOSING | CLOSED.

#[global] Instance ReadyState_eq_dec : EqDecision ReadyState.
Proof. solve_decision. Defined.

(** The JSON object the page sends. *)
Record Request := {
  query : string;
  use_search : bool;
  mode : string
}.

(** One socket: its [readyState], the frames handed to [send] while it was
    open, and the variable [query] its handlers closed over when
    [handleSubmit] installed them. *)
Record t := {
  readyState : ReadyState;
  sent : list Request;
  closure_query : string
}.

(** [new WebSocket(url)] with the handlers of a [handleSubmit] call. *)
Definition create (q : string) : t :=
  {| readyState := CONNECTING; sent := []; closure_query := q |}.

Definition with_readyState (r : ReadyState) (ws : t) : t :=
  {| readyState := r; sent := sent ws; closure_query := closure_query ws |}.

(** [ws.send(frame)]: transmitted on an open socket; a closing or closed
    socket drops it; a connecting one throws, leaving the socket as it is. *)
Definition send (frame : Request) (ws : t) : t :=
  match readyState ws with
  | OPEN => {| readyState := OPEN;
               sent := sent ws ++ [frame];
               closure_query := closure_query ws |}
  | _ => ws
  end.

(** [ws.close()]: starts the closing handshake unless already closing or
    closed. *)
Definition close (ws : t) : t :=
  match readyState ws with
  | CONNECTING | OPEN => with_readyState CLOSING ws
  | CLOSING | CLOSED => ws
  end.

(** A socket counts as live while it is connecting or open. *)
Definition live (ws : t) : bool :=
  match readyState ws with
  | CONNECTING | OPEN => true
  | CLOSING | CLOSED => false
  end.

End WebSocket.

(** ** [app/page.tsx] *)
Module Home.
Import Research.

(** The [useState] cells of [Home]. *)
Record State := {
  query : string;
  isLoading : bool;
  error : option string;
  result : option ResearchResponse;
  status : string;
  statusDetails : string
}.

Definition initial : State :=
  {| query := ""; isLoading := false; error := None; result := None;
     status := "Initializing..."; statusDetails := "" |}.

Definition setQuery (v : string) (s : State) : State :=
  {| query := v; isLoading := isLoading s; error := error s;
     result := result s; status := status s;
     statusDetails := statusDetails s |}.

Definition setIsLoading (v : bool) (s : State) : State :=
  {| query := query s; isLoading := v; error := error s;
     result := result s; status := status s;
     statusDetails := statusDetails s |}.

Definition setError (v : option string) (s : State) : State :=
  {| query := query s; isLoading := isLoading s; error := v;
     result := result s; status := status s;
     statusDetails := statusDetails s |}.

Definition setResult (v : option ResearchResponse) (s : State) : State :=
  {| query := query s; isLoading := isLoading s; error := error s;
     result := v; status := status s;
     statusDetails := statusDetails s |}.

Definition setStatus (v : string) (s : State) : State :=
  {| query := query s; isLoading := isLoading s; error := error s;
     result := result s; status := v;
     statusDetails := statusDetails s |}.

Definition setStatusDetails (v : string) (s : State) : State :=
  {| query := query s; isLoading := isLoading s; error := error s;
     result := result s; status := status s;
     statusDetails := v |}.

(** The object [JSON.parse(event.data)] yields, with the fields the
    handler reads.  [type] is whatever the frame carries ([None] when the
    field is missing or not a string); the other fields have the types of
    the back end's protocol, [details] and [sources] being optional. *)
Record Data := {
  type : option string;
  stage : string;
  details : option string;
  answer : string;
  sources : option (list Source);
  content : string
}.

(** The page's state together with the sockets it has created, in creation
    order; a socket is named by its position. *)
Record World := {
  state : State;
  sockets : list WebSocket.t
}.

Definition update (f : State -> State) (x : World) : World :=
  {| state := f (state x); sockets := sockets x |}.

Definition on_socket (w : nat) (f : WebSocket.t -> WebSocket.t) (x : World) : World :=
  {| state := state x; sockets := alter f w (sockets x) |}.

Notation "x |> f" := (f x) (at level 45, left associativity, only parsing).

(** [ws.onopen], installed by a [handleSubmit] call that saw [query = q]
    and created socket [w]. *)
Definition onopen (q : string) (w : nat) (x : World) : World :=
  x |> on_socket w
         (WebSocket.send
            {| WebSocket.query := JS.trim q;
               WebSocket.use_search := true;
               WebSocket.mode := "ultra" |}).

(** [ws.onmessage].  [parsed] is the outcome of [JSON.parse(event.data)]:
    [None] when it throws (or yields [null], on which [data.type] throws);
    the exception leaves the handler before any state is set. *)
Definition onmessage (q : string) (w : nat) (parsed : option Data) (x : World) : World :=
  match parsed with
  | None => x
  | Some data =>
      if bool_decide (type data = Some "status") then
        x |> update (setStatus (stage data))
          |> update (setStatusDetails (JS.or_string (details data) ""))
      else if bool_decide (type data = Some "result") then
        x |> update (setResult (Some
               {| Research.query := JS.trim q;
                  Research.answer := answer data;
                  Research.sources := JS.or_array (sources data) [];
                  Research.search_strategy := Some "Real-time Agent Research" |}))
          |> update (setIsLoading false)
          |> on_socket w WebSocket.close
      else if bool_decide (type data = Some "error") then
        x |> update (setError (Some (content data)))
          |> update (setIsLoading false)
          |> on_socket w WebSocket.close
      else x
  end.

(** [ws.onerror] *)
Definition onerror (x : World) : World :=
  x |> update (setError (Some "Connection failed. Make sure backend is running."))
    |> update (setIsLoading false).

(** [ws.onclose] *)
Definition onclose (x : World) : World := x.

(** [handleSubmit].  [ctor] is what [new WebSocket(wsUrl)] does for the
    configured back-end URL: [None] when it returns a socket, [Some m] when
    it throws an error with message [m]. *)
Definition handleSubmit (ctor : option string) (x : World) : World :=
  if bool_decide (JS.trim (query (state x)) = "") then
    x |> update (setError (Some "Please enter a research question!"))
  else
    let x := x |> update (setIsLoading true)
               |> update (setError None)
               |> update (setResult None)
               |> update (setStatus "Starting...")
               |> update (setStatusDetails "Connecting to research agents...") in
    match ctor with
    | None =>
        {| state := state x;
           sockets := sockets x ++ [WebSocket.create (query (state x))] |}
    | Some message =>
        x |> update (setError (Some message))
          |> update (setIsLoading false)
    end.

(** [handleClear] *)
Definition handleClear (x : World) : World :=
  x |> update (setResult None)
    |> update (setError None)
    |> update (setQuery "").

(** [process.env.NEXT_PUBLIC_BACKEND_URL || 'http://localhost:8000'] *)
Definition backendUrl (env : option string) : string :=
  JS.or_string env "http://localhost:8000".

(** [backendUrl.replace(/^http/, 'ws') + '/ws'], the URL [handleSubmit]
    gives to [new WebSocket]. *)
Definition wsUrl (env : option string) : string :=
  JS.replaceStart "http" "ws" (backendUrl env) +:+ "/ws".

End Home.

(** ** The page with its children and sockets, driven by events *)
Module App.
Import Home.

(** [ctor] is the (fixed) behaviour of [new WebSocket(wsUrl)] for the
    configured URL and [canParse] the (fixed) URL parser of the browser,
    telling for which strings [new URL] returns; [loading] and [pdf] are the
    states of the mounted [LoadingState] and [PDFExportButton], [None] while
    unmounted; [mounts] counts the [PDFExportButton] instances mounted so
    far.  [crashed] says that a render threw: the page has no error
    boundary, so React removed the whole tree.  From then on nothing is
    mounted or rendered and the user has no control left to act on, while
    the sockets live on and their handlers still run; [page] then only
    records what the handlers last passed to the setters of the unmounted
    component, which nothing displays any more. *)
Record t := {
  ctor : option string;
  canParse : string -> bool;
  page : World;
  loading : option LoadingState.t;
  pdf : option PDFExportButton.t;
  mounts : nat;
  crashed : bool
}.

(** What the user and the browser can do to the page. *)
Inductive Event :=
| Change (value : string)                  (* textarea onChange *)
| KeyDown (key : string) (shiftKey : bool) (* textarea onKeyDown *)
| ClickResearch                            (* the Research button *)
| ClickNewQuery                            (* New Query, in ResultsDisplay *)
| ClickPdf                                 (* the PDF button *)
| PdfSettled (i : nat) (o : PDFExportButton.FetchOutcome)
    (* the fetch started by instance [i] of the PDF button settles *)
| WsOpen (w : nat)                         (* open event on socket [w] *)
| WsMessage (w : nat) (parsed : option Data) (* message event on socket [w] *)
| WsError (w : nat)                        (* error event on socket [w] *)
| WsClose (w : nat).                       (* close event on socket [w] *)

(** The events that come from the user. *)
Definition user (e : Event) : bool :=
  match e with
  | Change _ | KeyDown _ _ | ClickResearch | ClickNewQuery | ClickPdf => true
  | _ => false
  end.

(** [{isLoading && <LoadingState status={status} .../>}] *)
Definition render_loading (s : State) (c : option LoadingState.t)
  : option LoadingState.t :=
  if isLoading s then
    Some (match c with
          | Some c => LoadingState.rerender (status s) c
          | None => LoadingState.mount (status s)
          end)
  else None.

(** [{!isLoading && result && <ResultsDisplay .../>}] *)
Definition showsResults (s : State) : bool :=
  negb (isLoading s) && bool_decide (is_Some (result s)).

(** Whether the render of the current state throws: the results panel is
    to be shown and does not render. *)
Definition throws (a : t) : bool :=
  let s := state (page a) in
  showsResults s &&
  match result s with
  | Some r => negb (ResultsDisplay.renders (canParse a) r)
  | None => false
  end.

(** One render pass after the state changed: children are mounted,
    re-rendered or unmounted as the JSX says.  When the pass throws, the
    tree is removed; once it is removed, nothing renders again. *)
Definition render (a : t) : t :=
  let s := state (page a) in
  let fresh := showsResults s && bool_decide (pdf a = None) in
  if crashed a then a
  else if throws a then
    {| ctor := ctor a; canParse := canParse a;
       page := page a;
       loading := None;
       pdf := None;
       mounts := mounts a;
       crashed := true |}
  else
    {| ctor := ctor a; canParse := canParse a;
       page := page a;
       loading := render_loading s (loading a);
       pdf := if showsResults s then
                Some (from_option id (PDFExportButton.mount (mounts a)) (pdf a))
              else None;
       mounts := if fresh then S (mounts a) else mounts a;
       crashed := false |}.

Definition with_page (f : World -> World) (a : t) : t :=
  {| ctor := ctor a; canParse := canParse a; page := f (page a);
     loading := loading a; pdf := pdf a; mounts := mounts a;
     crashed := crashed a |}.

Definition with_pdf (f : PDFExportButton.t -> PDFExportButton.t) (a : t) : t :=
  {| ctor := ctor a; canParse := canParse a; page := page a;
     loading := loading a; pdf := f <$> pdf a; mounts := mounts a;
     crashed := crashed a |}.

(** Run the handler [f] installed on socket [w] with its closure. *)
Definition on_handlers (w : nat) (f : string -> World -> World) (x : World) : World :=
  match sockets x !! w with
  | Some ws => f (WebSocket.closure_query ws) x
  | None => x
  end.

(** The handler an event runs. *)
Definition dispatch (e : Event) (a : t) : t :=
  match e with
  | Change value => with_page (update (setQuery value)) a
  | KeyDown key shiftKey =>
      let s := state (page a) in
      if SearchBar.handleKeyDown key shiftKey (query s) (isLoading s)
      then with_page (handleSubmit (ctor a)) a
      else a
  | ClickResearch => with_page (handleSubmit (ctor a)) a
  | ClickNewQuery => with_page handleClear a
  | ClickPdf => with_pdf PDFExportButton.handleDownload_begin a
  | PdfSettled _ o => with_pdf (PDFExportButton.handleDownload_settle o) a
  | WsOpen w =>
      with_page (fun x =>
        on_handlers w (fun q => onopen q w)
          (on_socket w (WebSocket.with_readyState WebSocket.OPEN) x)) a
  | WsMessage w parsed =>
      with_page (on_handlers w (fun q => onmessage q w parsed)) a
  | WsError w =>
      with_page (fun x =>
        on_handlers w (fun _ => onerror)
          (on_socket w (WebSocket.with_readyState WebSocket.CLOSED) x)) a
  | WsClose w =>
      with_page (fun x =>
        on_handlers w (fun _ => onclose)
          (on_socket w (WebSocket.with_readyState WebSocket.CLOSED) x)) a
  end.

(** An event is handled, then React renders. *)
Definition handle (e : Event) (a : t) : t := render (dispatch e a).

Definition readyState_is (r : WebSocket.ReadyState) (w : nat) (a : t) : bool :=
  match sockets (page a) !! w with
  | Some ws => bool_decide (WebSocket.readyState ws = r)
  | None => false
  end.

Definition is_live (w : nat) (a : t) : bool :=
  match sockets (page a) !! w with
  | Some ws => WebSocket.live ws
  | None => false
  end.

(** When the page and the browser offer an event.  For the user's events
    this is the [disabled] attributes and the conditional rendering of the
    JSX.  For the socket events it is the browser's side of the WebSocket
    interface: [open] is fired once, on a connecting socket; [message] only
    while [readyState] is OPEN; [error] on a socket that was still
    connecting or open, which the browser has closed by then; [close] on a
    socket not yet closed. *)
Definition offered (e : Event) (a : t) : bool :=
  let s := state (page a) in
  match e with
  | Change _ | KeyDown _ _ => negb (SearchBar.textareaDisabled (isLoading s))
  | ClickResearch => negb (SearchBar.buttonDisabled (query s) (isLoading s))
  | ClickNewQuery => showsResults s
  | ClickPdf =>
      match pdf a with
      | Some c => negb (PDFExportButton.isGenerating c)
      | None => false
      end
  | PdfSettled i _ =>
      match pdf a with
      | Some c => bool_decide (PDFExportButton.instance c = i)
                  && PDFExportButton.isGenerating c
      | None => false
      end
  | WsOpen w => readyState_is WebSocket.CONNECTING w a
  | WsMessage w _ => readyState_is WebSocket.OPEN w a
  | WsError w => is_live w a
  | WsClose w => negb (readyState_is WebSocket.CLOSED w a)
                 && bool_decide (is_Some (sockets (page a) !! w))
  end.

(** When an event can occur: it is offered, and it is not an event of the
    user on a page whose tree has been removed. *)
Definition enabled (e : Event) (a : t) : bool :=
  negb (crashed a && user e) && offered e a.

Definition step (e : Event) (a : t) : option t :=
  if enabled e a then Some (handle e a) else None.

Fixpoint run (es : list Event) (a : t) : option t :=
  match es with
  | [] => Some a
  | e :: es' =>
      match step e a with
      | Some a' => run es' a'
      | None => None
      end
  end.

(** The page as first rendered, in a browser where [new WebSocket(wsUrl)]
    behaves as [c] says and [new URL] returns on the strings [u] accepts. *)
Definition init (c : option string) (u : string -> bool) : t :=
  render {| ctor := c; canParse := u;
            page := {| state := Home.initial; sockets := [] |};
            loading := None; pdf := None; mounts := 0; crashed := false |}.

Inductive reachable : t -> Prop :=
| reachable_init c u : reachable (init c u)
| reachable_step a e :
    reachable a -> enabled e a = true -> reachable (handle e a).

(** The sockets that are connecting or open. *)
Definition liveSockets (a : t) : list WebSocket.t :=
  List.filter WebSocket.live (sockets (page a)).

End App.

(** * Notions used in the statements *)
Section Notions.
Import LoadingState WebSocket.

(** The label as the catalog is matched against it. *)
Definition normalized (label : string) : string :=
  JS.toLowerCase (JS.trim label).

(** Entry [i] of the catalog is the first one that occurs in [n]. *)
Definition first_match (n : string) (i : nat) : Prop :=
  (exists entry, STAGE_ORDER !! i = Some entry /\ JS.includes n entry = true) /\
  (forall j e, (j < i)%nat -> STAGE_ORDER !! j = Some e -> JS.includes n e = false).

Definition no_match (n : string) : Prop :=
  forall e, e ∈ STAGE_ORDER -> JS.includes n e = false.

(** round(((i+1)/11) × 100) *)
Definition percent (i : nat) : Z :=
  JS.Math_round ((inject_Z (Z.of_nat i + 1) / 11) * 100)%Q.

(** While mounted, the effect has caught up with the rendered progress; and
    nothing is mounted in a tree that has been removed. *)
Definition loading_ok (a : App.t) : Prop :=
  match App.loading a with
  | Some c => Home.isLoading (Home.state (App.page a)) = true
              /\ deps c <= displayProgress c
              /\ App.crashed a = false
  | None => True
  end.

(** The value on display, if [LoadingState] is mounted. *)
Definition shown (a : App.t) : option Z :=
  displayProgress <$> App.loading a.

(** The values on display after each of the events [es] in turn. *)
Fixpoint observe (a : App.t) (es : list App.Event) : list (option Z) :=
  match es with
  | [] => []
  | e :: es' => let a' := App.handle e a in shown a' :: observe a' es'
  end.

(** displayed = max(previous, computed), label after label. *)
Fixpoint running_max (prev : Z) (labels : list string) : list Z :=
  match labels with
  | [] => []
  | l :: ls =>
      let v := Z.max prev (stageToProgress l) in v :: running_max v ls
  end.

(** A status frame on socket [w]. *)
Definition status_event (w : nat) (d : Home.Data) : App.Event :=
  App.WsMessage w (Some d).

(** A URL parser for the sessions below: it accepts the strings that begin
    with http:// or https:// and go on, and no others.  On the urls that
    occur in these sessions it answers as [new URL] does: "http://x" and
    "http://y" parse, "example.org/page" has no scheme and does not. *)
Definition sample_parser (url : string) : bool :=
  match JS.dropPrefix url "http://", JS.dropPrefix url "https://" with
  | Some (String _ _), _ | _, Some (String _ _) => true
  | _, _ => false
  end.

(** The user typed a question, pressed Research, and the socket opened. *)
Definition session_events : list App.Event :=
  [App.Change " gpu kernels "; App.ClickResearch; App.WsOpen 0].

Definition session_open : App.t :=
  Eval vm_compute in
    from_option id (App.init None sample_parser) (App.run session_events (App.init None sample_parser)).

Definition frame (ty : option string) (st : string) : Home.Data :=
  {| Home.type := ty; Home.stage := st; Home.details := None;
     Home.answer := ""; Home.sources := None; Home.content := "" |}.

(** The parse failed, or the discriminant is none of the three the handler
    tests for. *)
Definition unrecognised (parsed : option Home.Data) : Prop :=
  match parsed with
  | None => True
  | Some data =>
      Home.type data <> Some "status" /\
      Home.type data <> Some "result" /\
      Home.type data <> Some "error"
  end.

(** The request frame of a submission that saw [query = q]. *)
Definition request (q : string) : Request :=
  {| WebSocket.query := JS.trim q; use_search := true; mode := "ultra" |}.

(** [f] leaves the handlers' closure alone. *)
Definition keeps_closure (f : WebSocket.t -> WebSocket.t) : Prop :=
  forall ws, closure_query (f ws) = closure_query ws.


(** The events that submit the question. *)
Definition submits (e : App.Event) : Prop :=
  e = App.ClickResearch \/ e = App.KeyDown "Enter" false.

(** What the result branch of [onmessage] builds for a submission that saw
    [query = q]. *)
Definition assembled (q : string) (d : Home.Data) : Research.ResearchResponse :=
  {| Research.query := JS.trim q;
     Research.answer := Home.answer d;
     Research.sources := from_option id [] (Home.sources d);
     Research.search_strategy := Some "Real-time Agent Research" |}.

Definition result_frame : Home.Data :=
  {| Home.type := Some "result"; Home.stage := ""; Home.details := None;
     Home.answer := "GPU kernels are ...";
     Home.sources :=
       Some [ {| Research.title := "A"; Research.url := "http://x";
                 Research.source_type := "arxiv"; Research.authors := None |};
              {| Research.title := "B"; Research.url := "http://y";
                 Research.source_type := "web"; Research.authors := None |} ];
     Home.content := "" |}.

(** A result frame with a web source whose url has no scheme. *)
Definition relative_url_frame : Home.Data :=
  {| Home.type := Some "result"; Home.stage := ""; Home.details := None;
     Home.answer := "See the page.";
     Home.sources :=
       Some [ {| Research.title := "B"; Research.url := "example.org/page";
                 Research.source_type := "web"; Research.authors := None |} ];
     Home.content := "" |}.

(** Nothing is sent before the socket opens, and the one request of its
    submission once it is open. *)
Definition sent_ok (ws : WebSocket.t) : Prop :=
  match readyState ws with
  | CONNECTING => sent ws = []
  | OPEN => sent ws = [request (closure_query ws)]
  | CLOSING | CLOSED =>
      sent ws = [] \/ sent ws = [request (closure_query ws)]
  end.

Definition live_count (l : list WebSocket.t) : nat :=
  length (List.filter live l).

(** At most one socket is live, and none unless the page is loading. *)
Definition one_channel (x : Home.World) : Prop :=
  (live_count (Home.sockets x) <= 1)%nat /\
  (Home.isLoading (Home.state x) = false -> live_count (Home.sockets x) = 0%nat).

Definition error_frame : Home.Data :=
  {| Home.type := Some "error"; Home.stage := ""; Home.details := None;
     Home.answer := ""; Home.sources := None;
     Home.content := "Research failed" |}.

(** The running session after an error frame closed its socket. *)
Definition session_closed : App.t :=
  Eval vm_compute in
    App.handle (App.WsMessage 0 (Some error_frame)) session_open.

(** The report is shown and its PDF export is in flight. *)
Definition export_events : list App.Event :=
  session_events ++ [App.WsMessage 0 (Some result_frame); App.ClickPdf].

Definition session_exporting : App.t :=
  Eval vm_compute in
    from_option id (App.init None sample_parser) (App.run export_events (App.init None sample_parser)).

(** All code units of [s] are white space. *)
Fixpoint blank (s : string) : bool :=
  match s with
  | EmptyString => true
  | String c r => JS.isWhiteSpace c && blank r
  end.

(** A string that does not begin with white space. *)
Definition trimmed_start (s : string) : Prop := JS.trimStart s = s.

(** The values [stageToProgress] takes. *)
Definition progress_values : list Z :=
  [8; 9; 18; 27; 36; 45; 55; 64; 82; 91; 100].

(** How far a socket has come in its life. *)
Definition rank (r : ReadyState) : nat :=
  match r with
  | CONNECTING => 0
  | OPEN => 1
  | CLOSING => 2
  | CLOSED => 3
  end.

(** Every socket of [l] is still at its place in [l'], with the same closure
    and no earlier in its life. *)
Definition ages (l l' : list WebSocket.t) : Prop :=
  forall i ws, l !! i = Some ws ->
    exists ws', l' !! i = Some ws'
      /\ closure_query ws' = closure_query ws
      /\ (rank (readyState ws) <= rank (readyState ws'))%nat.

(** Neither a report nor an error while loading, and never both. *)
Definition exclusive (s : Home.State) : Prop :=
  (Home.isLoading s = true -> Home.result s = None /\ Home.error s = None) /\
  (is_Some (Home.result s) -> Home.error s = None).

(** The page is loading, and no socket is connecting or open. *)
Definition stalled (a : App.t) : Prop :=
  Home.isLoading (Home.state (App.page a)) = true /\
  live_count (Home.sockets (App.page a)) = 0%nat.

(** Every socket was created for a question that is not blank. *)
Definition asked (x : Home.World) : Prop :=
  Forall (fun ws => JS.trim (closure_query ws) <> "") (Home.sockets x).

(** While an export is in flight the button shows no error. *)
Definition pdf_ok (a : App.t) : Prop :=
  match App.pdf a with
  | Some c =>
      PDFExportButton.isGenerating c = true -> PDFExportButton.error c = None
  | None => True
  end.

(** The display of a mounted [LoadingState] is a value of the catalog, and
    not behind the stage the page is at. *)
Definition display_ok (a : App.t) : Prop :=
  match App.loading a with
  | Some c =>
      displayProgress c ∈ progress_values /\
      stageToProgress (Home.status (Home.state (App.page a))) <= displayProgress c
  | None => True
  end.

(** The events [es] handled one after the other. *)
Fixpoint handle_all (es : list App.Event) (a : App.t) : App.t :=
  match es with
  | [] => a
  | e :: es' => handle_all es' (App.handle e a)
  end.

(** The sources that are neither papers nor web pages. *)
Definition otherSources (result : Research.ResearchResponse) : list Research.Source :=
  filter (fun s => Research.source_type s <> "arxiv"
                   /\ Research.source_type s <> "web")
         (Research.sources result).

End Notions.

(** * Properties *)

(** ** The built-ins *)
Section JSFacts.

Lemma startsWith_app (s t : string) :
  JS.startsWith s t = true <-> exists b, s = t +:+ b.
Proof.
  revert s. induction t as [|c t IH]; intros s; simpl.
  - split; [intros _; exists s; reflexivity | reflexivity].
  - destruct s as [|a s]; simpl.
    + split; [discriminate | intros [b Hb]; discriminate].
    + rewrite andb_true_iff, bool_decide_eq_true, IH. split.
      * intros [-> [b ->]]. exists b. reflexivity.
      * intros [b Hb]. injection Hb as -> ->. split; [reflexivity | eauto].
Qed.

(** [includes] is the substring test. *)
Lemma includes_app (s t : string) :
  JS.includes s t = true <-> exists a b, s = a +:+ t +:+ b.
Proof.
  induction s as [|c s IH]; simpl.
  - rewrite orb_false_r, startsWith_app. split.
    + intros [b Hb]. exists "", b. exact Hb.
    + intros [a [b Hab]]. destruct a; [eauto | discriminate].
  - rewrite orb_true_iff, startsWith_app, IH. split.
    + intros [[b Hb] | [a [b Hab]]].
      * exists "", b. exact Hb.
      * exists (String c a), b. rewrite Hab. reflexivity.
    + intros [[|c' a] [b Hab]].
      * left. exists b. exact Hab.
      * right. injection Hab as -> ->. eauto.
Qed.

Context {A : Type} (p : A -> bool).

Lemma findIndexFrom_first (l : list A) (k : Z) (i : nat) (x : A) :
  l !! i = Some x ->
  p x = true ->
  (forall j y, (j < i)%nat -> l !! j = Some y -> p y = false) ->
  JS.findIndexFrom p l k = k + Z.of_nat i.
Proof.
  revert k i. induction l as [|y l IH]; intros k i Hi Hx Hbefore; [done|].
  destruct i as [|i]; simpl in *.
  - injection Hi as ->. rewrite Hx. lia.
  - rewrite (Hbefore 0%nat y) by (done || lia).
    rewrite (IH (k + 1) i); [lia | done | done |].
    intros j z Hj Hz. apply (Hbefore (S j)); [lia | done].
Qed.

Lemma findIndexFrom_none (l : list A) (k : Z) :
  (forall x, x ∈ l -> p x = false) ->
  JS.findIndexFrom p l k = -1.
Proof.
  revert k. induction l as [|y l IH]; intros k Hall; [done|]. simpl.
  rewrite (Hall y) by apply list_elem_of_here.
  apply IH. intros x Hx. apply Hall. by apply list_elem_of_further.
Qed.

End JSFacts.

(** ** [stageToProgress] *)
Section StageToProgress.
Import LoadingState.

Lemma stageToProgress_first (label : string) (i : nat) :
  first_match (normalized label) i -> stageToProgress label = percent i.
Proof.
  intros [[entry [Hi Hin]] Hbefore]. unfold stageToProgress, JS.findIndex.
  pose proof (findIndexFrom_first
                (fun s => JS.includes (normalized label) s)
                _ 0 i entry Hi Hin Hbefore) as Hfirst.
  unfold normalized in Hfirst. rewrite Hfirst.
  destruct (0 + Z.of_nat i =? -1) eqn:E; [lia|]. reflexivity.
Qed.

Lemma stageToProgress_none (label : string) :
  no_match (normalized label) -> stageToProgress label = 8.
Proof.
  intros Hnone. unfold stageToProgress, JS.findIndex.
  pose proof (findIndexFrom_none
                (fun s => JS.includes (normalized label) s)
                STAGE_ORDER 0 Hnone) as Hminus.
  unfold normalized in Hminus. rewrite Hminus. reflexivity.
Qed.

(** Every label falls under one of the two cases. *)
Lemma first_match_or_none (n : string) :
  (exists i, first_match n i) \/ no_match n.
Proof.
  unfold first_match, no_match.
  generalize STAGE_ORDER as l. induction l as [|x l IH].
  - right. intros e He. by apply elem_of_nil in He.
  - destruct (JS.includes n x) eqn:Hx.
    + left. exists 0%nat. split; [by exists x | intros; lia].
    + destruct IH as [[i [[e [Hi He]] Hb]] | Hnone].
      * left. exists (S i). split; [by exists e|].
        intros [|j] y Hj Hy; simpl in Hy; [by injection Hy as <-|].
        apply (Hb j); [lia | done].
      * right. intros e He. apply elem_of_cons in He as [-> | He]; auto.
Qed.

Lemma percent_table :
  map percent (seq 0 11) = [9; 18; 27; 36; 45; 55; 64; 73; 82; 91; 100].
Proof. reflexivity. Qed.

Lemma first_match_lt (n : string) (i : nat) :
  first_match n i -> (i < 11)%nat.
Proof.
  intros [[e [Hi _]] _]. apply lookup_lt_Some in Hi. exact Hi.
Qed.

Lemma percent_range (i : nat) : (i < 11)%nat -> 9 <= percent i <= 100.
Proof.
  intros Hi. do 11 (destruct i as [|i]; [by vm_compute|]). lia.
Qed.

Lemma stageToProgress_range (label : string) :
  8 <= stageToProgress label <= 100.
Proof.
  destruct (first_match_or_none (normalized label)) as [[i Hi] | Hnone].
  - rewrite (stageToProgress_first _ _ Hi).
    pose proof (percent_range i (first_match_lt _ _ Hi)). lia.
  - rewrite (stageToProgress_none _ Hnone). lia.
Qed.

End StageToProgress.

(** ** Claims on the stage catalog *)

(** C2 (as amended): [stageToProgress] trims and lower-cases the label and
    takes the first catalog entry, in catalog order, that is a substring of
    it; for the entry of zero-based ordinal [i] the result is
    round(((i+1)/11) × 100), and 8 when no entry matches.  A label whose
    normalized form contains "searching" and neither "checking memory" nor
    "planning" yields 27, and the label "finished" yields 100. *)
Theorem C2_stageToProgress_first_match (label : string) :
  (forall i, first_match (normalized label) i ->
             LoadingState.stageToProgress label = percent i) /\
  (no_match (normalized label) -> LoadingState.stageToProgress label = 8) /\
  (JS.includes (normalized label) "searching" = true ->
   JS.includes (normalized label) "checking memory" = false ->
   JS.includes (normalized label) "planning" = false ->
   LoadingState.stageToProgress label = 27) /\
  LoadingState.stageToProgress "finished" = 100.
Proof.
  split; [| split; [| split]].
  - intros i Hi. by apply stageToProgress_first.
  - apply stageToProgress_none.
  - intros Hs Hc Hp.
    rewrite (stageToProgress_first label 2); [reflexivity|].
    split; [by exists "searching"|].
    intros [|[|j]] e Hj He; simpl in He; [| | lia];
      injection He as <-; assumption.
  - reflexivity.
Qed.

Lemma C2_witness :
  LoadingState.stageToProgress "  Searching arXiv " = 27 /\
  LoadingState.stageToProgress "Writing the report" = percent 4 /\
  LoadingState.stageToProgress "Warming up" = 8.
Proof.
  destruct (C2_stageToProgress_first_match "  Searching arXiv ")
    as (_ & _ & Hsearch & _).
  destruct (C2_stageToProgress_first_match "Writing the report")
    as (Hfirst & _ & _ & _).
  destruct (C2_stageToProgress_first_match "Warming up")
    as (_ & Hnone & _ & _).
  split; [| split].
  - apply Hsearch; reflexivity.
  - apply Hfirst. split; [by exists "writing"|].
    intros [|[|[|[|j]]]] e Hj He; simpl in He; [| | | | lia];
      injection He as <-; reflexivity.
  - apply Hnone. intros e He.
    repeat (apply elem_of_cons in He as [-> | He]; [reflexivity|]).
    by apply elem_of_nil in He.
Defined.

(** C2, the claim as stated fails: a label that contains "searching" after
    an earlier catalog entry gets that entry's value, here 18 for
    "planning". *)
Lemma C2_counterexample :
  JS.includes "planning, then searching" "searching" = true /\
  LoadingState.stageToProgress "planning, then searching" = 18 /\
  LoadingState.stageToProgress "planning, then searching" <> 27.
Proof. split; [reflexivity | split; [reflexivity | discriminate]]. Qed.

(** C7 (as amended): the first catalog entry is "checking memory", written
    with a space; every label whose normalized form contains
    "checking memory" matches it first and gets 9. *)
Theorem C7_checking_memory_first (label : string) :
  LoadingState.STAGE_ORDER !! 0%nat = Some "checking memory" /\
  (JS.includes (normalized label) "checking memory" = true ->
   first_match (normalized label) 0 /\
   LoadingState.stageToProgress label = 9).
Proof.
  split; [reflexivity|]. intros Hin.
  assert (first_match (normalized label) 0) as Hfirst.
  { split; [by exists "checking memory" | intros; lia]. }
  split; [exact Hfirst|].
  rewrite (stageToProgress_first label 0 Hfirst). reflexivity.
Qed.

Lemma C7_witness :
  JS.includes (normalized " Checking Memory for past work ") "checking memory" = true /\
  LoadingState.stageToProgress " Checking Memory for past work " = 9.
Proof.
  split; [reflexivity|].
  apply (C7_checking_memory_first " Checking Memory for past work ").
  reflexivity.
Defined.

(** C7, the claim as stated fails: the catalog has no entry
    "checking-memory", and the label "checking-memory" matches no entry, so
    it gets the fallback 8, not 9. *)
Lemma C7_counterexample :
  ("checking-memory" ∉ LoadingState.STAGE_ORDER) /\
  JS.includes (normalized "checking-memory") "checking-memory" = true /\
  LoadingState.stageToProgress "checking-memory" = 8.
Proof.
  split; [| split; reflexivity].
  intros Hin.
  repeat (apply elem_of_cons in Hin as [Heq | Hin]; [discriminate Heq|]).
  by apply elem_of_nil in Hin.
Qed.

(** ** The mounted [LoadingState] *)
Section Loading.
Import LoadingState.

Lemma mount_deps_le (st : string) :
  deps (mount st) <= displayProgress (mount st).
Proof. unfold mount, effect. simpl. lia. Qed.

Lemma rerender_display (st : string) (c : t) :
  deps c <= displayProgress c ->
  displayProgress (rerender st c)
  = Z.max (displayProgress c) (stageToProgress st)
  /\ deps (rerender st c) <= displayProgress (rerender st c).
Proof.
  intros Hc. unfold rerender, effect.
  destruct (stageToProgress st =? deps c) eqn:E; simpl; lia.
Qed.

(** The render pass of a tree that is in place and does not throw. *)
Lemma render_normal (a : App.t) :
  App.crashed a = false -> App.throws a = false ->
  App.render a
  = {| App.ctor := App.ctor a; App.canParse := App.canParse a;
       App.page := App.page a;
       App.loading :=
         App.render_loading (Home.state (App.page a)) (App.loading a);
       App.pdf :=
         if App.showsResults (Home.state (App.page a)) then
           Some (from_option id (PDFExportButton.mount (App.mounts a))
                   (App.pdf a))
         else None;
       App.mounts :=
         if App.showsResults (Home.state (App.page a))
            && bool_decide (App.pdf a = None)
         then S (App.mounts a) else App.mounts a;
       App.crashed := false |}.
Proof. intros Hc Ht. unfold App.render. by rewrite Hc, Ht. Qed.

(** The render pass that throws removes the tree. *)
Lemma render_throws (a : App.t) :
  App.crashed a = false -> App.throws a = true ->
  App.render a
  = {| App.ctor := App.ctor a; App.canParse := App.canParse a;
       App.page := App.page a; App.loading := None; App.pdf := None;
       App.mounts := App.mounts a; App.crashed := true |}.
Proof. intros Hc Ht. unfold App.render. by rewrite Hc, Ht. Qed.

Lemma render_crashed (a : App.t) :
  App.crashed a = true -> App.render a = a.
Proof. intros Hc. unfold App.render. by rewrite Hc. Qed.

(** Nothing throws while the results panel is not shown. *)
Lemma throws_hidden (a : App.t) :
  App.showsResults (Home.state (App.page a)) = false -> App.throws a = false.
Proof. intros Hs. unfold App.throws. by rewrite Hs. Qed.

Lemma throws_loading (a : App.t) :
  Home.isLoading (Home.state (App.page a)) = true -> App.throws a = false.
Proof.
  intros Hl. apply throws_hidden. unfold App.showsResults. by rewrite Hl.
Qed.

Lemma page_render (a : App.t) : App.page (App.render a) = App.page a.
Proof.
  unfold App.render. destruct (App.crashed a); [done|].
  by destruct (App.throws a).
Qed.

Lemma loading_ok_render (a : App.t) :
  (forall c, App.loading a = Some c ->
             deps c <= displayProgress c /\ App.crashed a = false) ->
  loading_ok (App.render a).
Proof.
  intros Hc. unfold loading_ok, App.render, App.render_loading.
  destruct (App.crashed a) eqn:Hcr.
  - destruct (App.loading a) as [c|]; [|done].
    by destruct (Hc c eq_refl) as [_ ?].
  - destruct (App.throws a); simpl; [done|].
    destruct (Home.isLoading (Home.state (App.page a))) eqn:Hl; [|done].
    split; [reflexivity|]. split; [|reflexivity].
    destruct (App.loading a) as [c|] eqn:Hc'.
    + by apply rerender_display, Hc.
    + apply mount_deps_le.
Qed.

Lemma dispatch_loading (e : App.Event) (a : App.t) :
  App.loading (App.dispatch e a) = App.loading a.
Proof.
  destruct e; simpl; try reflexivity.
  destruct (SearchBar.handleKeyDown _ _ _ _); reflexivity.
Qed.

Lemma dispatch_crashed (e : App.Event) (a : App.t) :
  App.crashed (App.dispatch e a) = App.crashed a.
Proof.
  destruct e; simpl; try reflexivity.
  destruct (SearchBar.handleKeyDown _ _ _ _); reflexivity.
Qed.

Lemma dispatch_canParse (e : App.Event) (a : App.t) :
  App.canParse (App.dispatch e a) = App.canParse a.
Proof.
  destruct e; simpl; try reflexivity.
  destruct (SearchBar.handleKeyDown _ _ _ _); reflexivity.
Qed.

Lemma loading_ok_handle (e : App.Event) (a : App.t) :
  loading_ok a -> loading_ok (App.handle e a).
Proof.
  intros Ha. apply loading_ok_render.
  rewrite dispatch_loading, dispatch_crashed.
  intros c Hc. unfold loading_ok in Ha. rewrite Hc in Ha. split; apply Ha.
Qed.

Lemma loading_ok_init (c : option string) (u : string -> bool) :
  loading_ok (App.init c u).
Proof. exact I. Qed.

Lemma reachable_loading_ok (a : App.t) : App.reachable a -> loading_ok a.
Proof.
  induction 1 as [c | a e _ IH _];
    [apply loading_ok_init | by apply loading_ok_handle].
Qed.

Lemma running_max_sorted (prev : Z) (labels : list string) :
  Sorted Z.le (prev :: running_max prev labels).
Proof.
  revert prev. induction labels as [|l ls IH]; intros prev; simpl.
  - repeat constructor.
  - constructor; [apply IH | constructor; lia].
Qed.

Lemma handle_status (a : App.t) (w : nat) (d : Home.Data) (prev : Z) :
  loading_ok a ->
  shown a = Some prev ->
  is_Some (Home.sockets (App.page a) !! w) ->
  Home.type d = Some "status" ->
  let a' := App.handle (status_event w d) a in
  shown a' = Some (Z.max prev (stageToProgress (Home.stage d)))
  /\ Home.sockets (App.page a') = Home.sockets (App.page a)
  /\ Home.status (Home.state (App.page a')) = Home.stage d.
Proof.
  intros Hok Hshown [ws Hws] Hty a'. unfold shown in Hshown.
  destruct (App.loading a) as [c|] eqn:Hc; [|discriminate].
  injection Hshown as <-. unfold loading_ok in Hok. rewrite Hc in Hok.
  destruct Hok as (Hl & Hle & Hcr).
  assert (App.page (App.dispatch (status_event w d) a)
          = {| Home.state :=
                 Home.setStatusDetails (JS.or_string (Home.details d) "")
                   (Home.setStatus (Home.stage d) (Home.state (App.page a)));
               Home.sockets := Home.sockets (App.page a) |}) as Hpage.
  { unfold status_event, App.dispatch, App.with_page, App.on_handlers,
      Home.onmessage. cbn [App.page]. rewrite Hws, Hty.
    by rewrite bool_decide_eq_true_2. }
  subst a'. unfold App.handle, shown.
  rewrite render_normal;
    [| by rewrite dispatch_crashed
     | apply throws_loading; by rewrite Hpage ].
  cbn [App.loading App.page]. rewrite Hpage, dispatch_loading, Hc.
  unfold App.render_loading. cbn. rewrite Hl. cbn.
  destruct (rerender_display (Home.stage d) c Hle) as [-> _]. done.
Qed.

End Loading.

(** C1: while [LoadingState] is mounted, every status frame sets the
    displayed progress to max(previous displayed value, computed progress
    of the frame's stage label), so over any sequence of status frames the
    displayed values never decrease, whatever stages the frames report. *)
Theorem C1_displayProgress_never_regresses
    (a : App.t) (w : nat) (frames : list Home.Data) (prev : Z) :
  App.reachable a ->
  shown a = Some prev ->
  is_Some (Home.sockets (App.page a) !! w) ->
  Forall (fun d => Home.type d = Some "status") frames ->
  observe a (status_event w <$> frames)
  = Some <$> running_max prev (Home.stage <$> frames)
  /\ Sorted Z.le (prev :: running_max prev (Home.stage <$> frames)).
Proof.
  intros Hreach Hshown Hw Hframes. split; [|apply running_max_sorted].
  apply reachable_loading_ok in Hreach. clear -Hreach Hshown Hw Hframes.
  revert a prev Hreach Hshown Hw.
  induction Hframes as [|d frames Hd _ IH]; intros a prev Hok Hshown Hw;
    [reflexivity|].
  destruct (handle_status a w d prev Hok Hshown Hw Hd) as (Hs' & Hsock & _).
  cbn [fmap list_fmap observe running_max]. rewrite Hs'. f_equal.
  apply IH.
  - by apply loading_ok_handle.
  - exact Hs'.
  - by rewrite Hsock.
Qed.

(** ** Rendering and reachable states *)
Section Rendering.
Import LoadingState.

Lemma rerender_rerender (st : string) (c : t) :
  rerender st (rerender st c) = rerender st c.
Proof.
  unfold rerender at 2.
  destruct (stageToProgress st =? deps c) eqn:E.
  - unfold rerender. by rewrite E.
  - unfold rerender. cbn [deps displayProgress].
    by rewrite Z.eqb_refl, E.
Qed.

Lemma rerender_mount (st : string) : rerender st (mount st) = mount st.
Proof.
  unfold rerender, mount. cbn [deps displayProgress].
  by rewrite Z.eqb_refl.
Qed.

Lemma page_handle (e : App.Event) (a : App.t) :
  App.page (App.handle e a) = App.page (App.dispatch e a).
Proof. apply page_render. Qed.

(** Rendering twice changes nothing more. *)
Lemma render_render (a : App.t) : App.render (App.render a) = App.render a.
Proof.
  destruct (App.crashed a) eqn:Hc;
    [rewrite (render_crashed a Hc); by apply render_crashed|].
  destruct (App.throws a) eqn:Ht.
  - rewrite (render_throws a Hc Ht). by apply render_crashed.
  - rewrite (render_normal a Hc Ht). destruct a as [c u x l p m cr].
    unfold App.render, App.throws, App.render_loading in *. simpl in *.
    rewrite Ht. f_equal.
    + destruct (Home.isLoading (Home.state x)); [|done]. f_equal.
      destruct l; [apply rerender_rerender | apply rerender_mount].
    + destruct (App.showsResults (Home.state x)); [|done].
      by destruct p.
    + destruct (App.showsResults (Home.state x)); simpl; done.
Qed.

Lemma reachable_rendered (a : App.t) : App.reachable a -> App.render a = a.
Proof. destruct 1; apply render_render. Qed.

(** A tree that is in place after a render pass rendered without throwing. *)
Lemma render_no_throw (x : App.t) :
  App.crashed (App.render x) = false -> App.throws (App.render x) = false.
Proof.
  unfold App.render. destruct (App.crashed x) eqn:Hc; [congruence|].
  destruct (App.throws x) eqn:Ht; [done|]. intros _.
  unfold App.throws in *. exact Ht.
Qed.

Lemma reachable_no_throw (a : App.t) :
  App.reachable a -> App.crashed a = false -> App.throws a = false.
Proof. destruct 1; apply render_no_throw. Qed.

(** Nothing is mounted in a tree that has been removed. *)
Lemma render_crashed_unmounted (x : App.t) :
  (App.crashed x = true -> App.loading x = None /\ App.pdf x = None) ->
  App.crashed (App.render x) = true ->
  App.loading (App.render x) = None /\ App.pdf (App.render x) = None.
Proof.
  intros Hx. unfold App.render. destruct (App.crashed x) eqn:Hc; [by auto|].
  by destruct (App.throws x).
Qed.

Lemma dispatch_pdf_None (e : App.Event) (a : App.t) :
  App.pdf a = None -> App.pdf (App.dispatch e a) = None.
Proof.
  intros Hp. destruct e; simpl; rewrite ?Hp; try done.
  by destruct (SearchBar.handleKeyDown _ _ _ _).
Qed.

Lemma reachable_crashed_unmounted (a : App.t) :
  App.reachable a -> App.crashed a = true ->
  App.loading a = None /\ App.pdf a = None.
Proof.
  induction 1 as [c u | a e _ IH _]; [discriminate|].
  apply render_crashed_unmounted. rewrite dispatch_crashed, dispatch_loading.
  intros Hc. destruct (IH Hc) as [Hl Hp].
  split; [done | by apply dispatch_pdf_None].
Qed.

(** A reachable state whose tree is in place is what its render pass
    yields. *)
Lemma reachable_normal (a : App.t) :
  App.reachable a -> App.crashed a = false ->
  App.loading a
  = App.render_loading (Home.state (App.page a)) (App.loading a) /\
  App.pdf a
  = (if App.showsResults (Home.state (App.page a)) then
       Some (from_option id (PDFExportButton.mount (App.mounts a)) (App.pdf a))
     else None).
Proof.
  intros Hreach Hc. pose proof (reachable_rendered a Hreach) as Hrender.
  rewrite (render_normal a Hc (reachable_no_throw a Hreach Hc)) in Hrender.
  split; [apply (f_equal App.loading) in Hrender
         | apply (f_equal App.pdf) in Hrender]; by symmetry.
Qed.

Lemma run_reachable (es : list App.Event) (a b : App.t) :
  App.reachable a -> App.run es a = Some b -> App.reachable b.
Proof.
  revert a. induction es as [|e es IH]; intros a Ha Hrun; simpl in Hrun.
  - by injection Hrun as <-.
  - unfold App.step in Hrun.
    destruct (App.enabled e a) eqn:He; [|discriminate].
    apply (IH (App.handle e a)); [by constructor | done].
Qed.

Lemma with_page_same (f : Home.World -> Home.World) (a : App.t) :
  f (App.page a) = App.page a -> App.with_page f a = a.
Proof. destruct a. unfold App.with_page. simpl. by intros ->. Qed.

(** An event that can occur is offered. *)
Lemma enabled_offered (e : App.Event) (a : App.t) :
  App.enabled e a = true -> App.offered e a = true.
Proof. unfold App.enabled. by intros [_ ?]%andb_true_iff. Qed.

Lemma offered_enabled (e : App.Event) (a : App.t) :
  App.user e = false -> App.offered e a = true -> App.enabled e a = true.
Proof. intros Hu Ho. unfold App.enabled. by rewrite Hu, andb_false_r, Ho. Qed.

Lemma not_offered (e : App.Event) (a : App.t) :
  App.offered e a = false -> App.enabled e a = false.
Proof. intros Ho. unfold App.enabled. by rewrite Ho, andb_false_r. Qed.

(** An event of the user can occur only while the tree is in place. *)
Lemma enabled_uncrashed (e : App.Event) (a : App.t) :
  App.enabled e a = true -> App.user e = true -> App.crashed a = false.
Proof.
  unfold App.enabled. intros [Hc _]%andb_true_iff Hu.
  rewrite Hu, andb_true_r in Hc. by apply negb_true_iff in Hc.
Qed.

End Rendering.

(** ** Sessions used as concrete inputs *)

Lemma session_open_run :
  App.run session_events (App.init None sample_parser) = Some session_open.
Proof. reflexivity. Qed.

Lemma session_open_reachable : App.reachable session_open.
Proof.
  apply (run_reachable session_events (App.init None sample_parser));
    [constructor | exact session_open_run].
Qed.

Lemma C1_witness :
  observe session_open
    (status_event 0 <$>
       [frame (Some "status") "Searching arXiv";
        frame (Some "status") "Planning";
        frame (Some "status") "warming up";
        frame (Some "status") "Writing"])
  = [Some 27; Some 27; Some 27; Some 45]
  /\ Sorted Z.le [8; 27; 27; 27; 45].
Proof.
  apply (C1_displayProgress_never_regresses session_open 0
           [frame (Some "status") "Searching arXiv";
            frame (Some "status") "Planning";
            frame (Some "status") "warming up";
            frame (Some "status") "Writing"] 8).
  - exact session_open_reachable.
  - reflexivity.
  - by eexists.
  - repeat constructor.
Defined.

(** ** Frames the handler does not recognise *)

Lemma onmessage_unrecognised (q : string) (w : nat)
    (parsed : option Home.Data) (x : Home.World) :
  unrecognised parsed -> Home.onmessage q w parsed x = x.
Proof.
  destruct parsed as [data|]; [|done]. intros (Hs & Hr & He).
  unfold Home.onmessage. by rewrite !bool_decide_eq_false_2.
Qed.

(** C3 (as amended): a frame that fails to parse, or whose discriminant is
    missing or not exactly one of status, result, error, is ignored: the
    handler changes nothing, so no error is recorded, a loading session
    stays loading and the socket keeps its readyState. *)
Theorem C3_unrecognised_frame_ignored
    (a : App.t) (w : nat) (parsed : option Home.Data) :
  App.reachable a ->
  unrecognised parsed ->
  App.handle (App.WsMessage w parsed) a = a.
Proof.
  intros Hreach Hun. unfold App.handle.
  assert (App.dispatch (App.WsMessage w parsed) a = a) as ->;
    [|by apply reachable_rendered].
  simpl. apply with_page_same. unfold App.on_handlers.
  destruct (Home.sockets (App.page a) !! w); [|done].
  by apply onmessage_unrecognised.
Qed.

Lemma C3_witness :
  App.handle (App.WsMessage 0 (Some (frame (Some "bogus") ""))) session_open
  = session_open.
Proof.
  apply (C3_unrecognised_frame_ignored session_open 0
           (Some (frame (Some "bogus") ""))).
  - exact session_open_reachable.
  - repeat split; discriminate.
Defined.

(** C3, the claim as stated fails: after a frame with discriminant "bogus",
    and after one without discriminant, the session is still loading, no
    error is set and the socket is still open. *)
Lemma C3_counterexample :
  App.enabled (App.WsMessage 0 (Some (frame (Some "bogus") ""))) session_open = true /\
  let after_bogus :=
    App.handle (App.WsMessage 0 (Some (frame (Some "bogus") ""))) session_open in
  let after_missing :=
    App.handle (App.WsMessage 0 (Some (frame None ""))) after_bogus in
  Home.isLoading (Home.state (App.page after_missing)) = true /\
  Home.error (Home.state (App.page after_missing)) = None /\
  App.readyState_is WebSocket.OPEN 0 after_missing = true.
Proof. repeat split. Qed.

(** ** How the handlers treat the sockets *)
Section Sockets.
Import WebSocket.


Lemma keeps_closure_send frame : keeps_closure (send frame).
Proof. intros ws. unfold send. by destruct (readyState ws). Qed.

Lemma keeps_closure_close : keeps_closure close.
Proof. intros ws. unfold close. by destruct (readyState ws). Qed.










(** A submission of a non-blank question runs [handleSubmit]. *)
Lemma dispatch_submits e a :
  submits e ->
  App.enabled e a = true ->
  JS.trim (Home.query (Home.state (App.page a))) <> "" ->
  App.dispatch e a = App.with_page (Home.handleSubmit (App.ctor a)) a.
Proof.
  intros [-> | ->] Hen Hq; [reflexivity|].
  apply enabled_offered in Hen. simpl in *.
  unfold SearchBar.handleKeyDown, SearchBar.textareaDisabled in *.
  rewrite Hen. by rewrite (bool_decide_eq_false_2 _ Hq).
Qed.

Lemma handleSubmit_sockets x :
  JS.trim (Home.query (Home.state x)) <> "" ->
  Home.sockets (Home.handleSubmit None x)
  = Home.sockets x ++ [create (Home.query (Home.state x))].
Proof.
  intros Hq. unfold Home.handleSubmit.
  by rewrite (bool_decide_eq_false_2 _ Hq).
Qed.

End Sockets.

(** ** The result frame *)

(** What the result branch of [onmessage] leaves, before React renders. *)
Lemma dispatch_result (b : App.t) (w : nat) (ws : WebSocket.t) (d : Home.Data) :
  Home.sockets (App.page b) !! w = Some ws ->
  Home.type d = Some "result" ->
  App.page (App.dispatch (App.WsMessage w (Some d)) b)
  = {| Home.state :=
         {| Home.query := Home.query (Home.state (App.page b));
            Home.isLoading := false;
            Home.error := Home.error (Home.state (App.page b));
            Home.result := Some (assembled (WebSocket.closure_query ws) d);
            Home.status := Home.status (Home.state (App.page b));
            Home.statusDetails := Home.statusDetails (Home.state (App.page b)) |};
       Home.sockets := alter WebSocket.close w (Home.sockets (App.page b)) |}.
Proof.
  intros Hw Hty.
  unfold App.dispatch, App.with_page, App.on_handlers, Home.onmessage.
  cbn [App.page]. rewrite Hw, Hty.
  rewrite bool_decide_eq_false_2 by discriminate.
  rewrite bool_decide_eq_true_2 by done.
  unfold assembled. cbn. by destruct (Home.sources d).
Qed.




(** ** Socket events as the browser fires them *)
Section SocketEvents.
Import WebSocket.

Lemma readyState_is_Some r w a :
  App.readyState_is r w a = true ->
  exists ws, Home.sockets (App.page a) !! w = Some ws /\ readyState ws = r.
Proof.
  unfold App.readyState_is.
  destruct (Home.sockets (App.page a) !! w) as [ws|]; [|discriminate].
  intros Hr%bool_decide_eq_true. eauto.
Qed.

Lemma is_live_Some w a :
  App.is_live w a = true ->
  exists ws, Home.sockets (App.page a) !! w = Some ws /\ live ws = true.
Proof.
  unfold App.is_live.
  destruct (Home.sockets (App.page a) !! w) as [ws|]; [eauto | discriminate].
Qed.

(** The sockets after the open event on a socket that exists. *)
Lemma sockets_WsOpen w a ws :
  Home.sockets (App.page a) !! w = Some ws ->
  Home.sockets (App.page (App.dispatch (App.WsOpen w) a))
  = alter (fun s => send (request (closure_query s)) (with_readyState OPEN s))
      w (Home.sockets (App.page a)).
Proof.
  intros Hw. simpl. unfold App.on_handlers, Home.on_socket. simpl.
  rewrite list_lookup_alter_eq, Hw. simpl.
  rewrite list_alter_alter_eq. apply list_alter_ext; [|done].
  intros s Hs. by simplify_eq.
Qed.

Lemma state_WsOpen w a :
  Home.state (App.page (App.dispatch (App.WsOpen w) a))
  = Home.state (App.page a).
Proof.
  simpl. unfold App.on_handlers. simpl.
  by destruct (alter _ w _ !! w).
Qed.

(** The page after the error event on a socket that exists. *)
Lemma page_WsError w a ws :
  Home.sockets (App.page a) !! w = Some ws ->
  App.page (App.dispatch (App.WsError w) a)
  = Home.onerror
      (Home.on_socket w (with_readyState CLOSED) (App.page a)).
Proof.
  intros Hw. simpl. unfold App.on_handlers. simpl.
  by rewrite list_lookup_alter_eq, Hw.
Qed.

Lemma page_WsClose w a :
  App.page (App.dispatch (App.WsClose w) a)
  = Home.on_socket w (with_readyState CLOSED) (App.page a).
Proof.
  simpl. unfold App.on_handlers, Home.onclose. simpl.
  by destruct (alter _ w _ !! w).
Qed.

Lemma page_WsMessage w parsed a ws :
  Home.sockets (App.page a) !! w = Some ws ->
  App.page (App.dispatch (App.WsMessage w parsed) a)
  = Home.onmessage (closure_query ws) w parsed (App.page a).
Proof. intros Hw. simpl. unfold App.on_handlers. by rewrite Hw. Qed.

(** The page after an event of the user that is not a submission. *)
Lemma sockets_user_other e a :
  App.user e = true ->
  Home.sockets (App.page (App.dispatch e a)) = Home.sockets (App.page a)
  \/ App.page (App.dispatch e a) = Home.handleSubmit (App.ctor a) (App.page a).
Proof.
  destruct e; try discriminate; intros _; simpl; auto.
  destruct (SearchBar.handleKeyDown _ _ _ _); auto.
Qed.

End SocketEvents.

(** ** One request per socket *)
Section Sent.
Import WebSocket.

Lemma sent_ok_create q : sent_ok (create q).
Proof. reflexivity. Qed.

Lemma sent_ok_close ws : sent_ok ws -> sent_ok (close ws).
Proof. destruct ws as [[] s q]; unfold sent_ok; simpl; auto. Qed.

Lemma sent_ok_closed ws : sent_ok ws -> sent_ok (with_readyState CLOSED ws).
Proof. destruct ws as [[] s q]; unfold sent_ok; simpl; auto. Qed.

Lemma sent_ok_open ws :
  readyState ws = CONNECTING -> sent_ok ws ->
  sent_ok (send (request (closure_query ws)) (with_readyState OPEN ws)).
Proof.
  destruct ws as [r s q]. unfold sent_ok. simpl. by intros -> ->.
Qed.

Lemma sent_ok_handleSubmit c x :
  Forall sent_ok (Home.sockets x) ->
  Forall sent_ok (Home.sockets (Home.handleSubmit c x)).
Proof.
  intros Hx. unfold Home.handleSubmit. case_bool_decide; [done|].
  destruct c; simpl; [done|].
  apply Forall_app. split; [done|]. repeat constructor.
Qed.

Lemma sent_ok_onmessage q w parsed x :
  Forall sent_ok (Home.sockets x) ->
  Forall sent_ok (Home.sockets (Home.onmessage q w parsed x)).
Proof.
  intros Hx. unfold Home.onmessage. destruct parsed as [data|]; [|done].
  repeat case_bool_decide; simpl; try done;
    apply Forall_alter; auto using sent_ok_close.
Qed.

Lemma sent_ok_step e a :
  App.enabled e a = true ->
  Forall sent_ok (Home.sockets (App.page a)) ->
  Forall sent_ok (Home.sockets (App.page (App.handle e a))).
Proof.
  intros Hen%enabled_offered Ha. rewrite page_handle.
  destruct (App.user e) eqn:Hu.
  - destruct (sockets_user_other e a Hu) as [-> | ->];
      [done | by apply sent_ok_handleSubmit].
  - destruct e; try discriminate.
    + done.
    + apply readyState_is_Some in Hen as (ws & Hw & Hr).
      rewrite (sockets_WsOpen w a ws Hw). apply Forall_alter; [done|].
      intros s Hs Hok. simplify_eq. by apply sent_ok_open.
    + apply readyState_is_Some in Hen as (ws & Hw & Hr).
      rewrite (page_WsMessage w parsed a ws Hw). by apply sent_ok_onmessage.
    + apply is_live_Some in Hen as (ws & Hw & Hl).
      rewrite (page_WsError w a ws Hw). simpl.
      apply Forall_alter; auto using sent_ok_closed.
    + rewrite page_WsClose. simpl.
      apply Forall_alter; auto using sent_ok_closed.
Qed.

Lemma reachable_sent_ok a :
  App.reachable a -> Forall sent_ok (Home.sockets (App.page a)).
Proof.
  induction 1 as [c | a e _ IH Hen]; [constructor | by apply sent_ok_step].
Qed.

End Sent.

(** C9: [handleSubmit] on a query that is blank after trimming fails the
    validation: the page's error becomes "Please enter a research question!"
    and nothing else changes: the question, the loading flag, the report and
    the status are the ones before, no socket is created and nothing is
    sent.  On any other query it creates exactly one socket, still connecting and with
    nothing sent.  In every reachable state a connecting socket has sent
    nothing, an open socket has sent exactly the one request
    {query (trimmed), use_search = true, mode = ultra} of its submission,
    which the open event sends, and no socket ever sends anything else. *)
Theorem C9_one_request_after_open
    (x : Home.World) (c : option string) (a : App.t) (w : nat) :
  (JS.trim (Home.query (Home.state x)) = "" ->
   Home.handleSubmit c x
   = {| Home.state :=
          {| Home.query := Home.query (Home.state x);
             Home.isLoading := Home.isLoading (Home.state x);
             Home.error := Some "Please enter a research question!";
             Home.result := Home.result (Home.state x);
             Home.status := Home.status (Home.state x);
             Home.statusDetails := Home.statusDetails (Home.state x) |};
        Home.sockets := Home.sockets x |}) /\
  (JS.trim (Home.query (Home.state x)) <> "" ->
   Home.sockets (Home.handleSubmit None x)
   = Home.sockets x
     ++ [ {| WebSocket.readyState := WebSocket.CONNECTING;
             WebSocket.sent := [];
             WebSocket.closure_query := Home.query (Home.state x) |} ]) /\
  (App.reachable a ->
   App.enabled (App.WsOpen w) a = true ->
   exists ws,
     Home.sockets (App.page (App.handle (App.WsOpen w) a)) !! w = Some ws /\
     WebSocket.readyState ws = WebSocket.OPEN /\
     WebSocket.sent ws = [request (WebSocket.closure_query ws)]) /\
  (App.reachable a ->
   forall ws, Home.sockets (App.page a) !! w = Some ws ->
     match WebSocket.readyState ws with
     | WebSocket.CONNECTING => WebSocket.sent ws = []
     | WebSocket.OPEN =>
         WebSocket.sent ws = [request (WebSocket.closure_query ws)]
     | _ => WebSocket.sent ws = [] \/
            WebSocket.sent ws = [request (WebSocket.closure_query ws)]
     end).
Proof.
  split; [| split; [| split]].
  - intros Hq. unfold Home.handleSubmit. by rewrite bool_decide_eq_true_2.
  - apply handleSubmit_sockets.
  - intros Hreach Hen%enabled_offered.
    pose proof (reachable_sent_ok a Hreach) as Hok.
    apply readyState_is_Some in Hen as (ws & Hw & Hr).
    rewrite page_handle, (sockets_WsOpen w a ws Hw), list_lookup_alter_eq, Hw.
    eexists. split; [reflexivity|].
    pose proof (proj1 (Forall_lookup _ _) Hok w ws Hw) as Hws.
    destruct ws as [r s q]. unfold sent_ok in Hws. simpl in *. subst r.
    by rewrite Hws.
  - intros Hreach ws Hw.
    exact (proj1 (Forall_lookup _ _) (reachable_sent_ok a Hreach) w ws Hw).
Qed.

Lemma C9_witness :
  let blank := {| Home.state := Home.setQuery "   " Home.initial;
                  Home.sockets := [] |} in
  let typed := {| Home.state := Home.setQuery " gpu kernels " Home.initial;
                  Home.sockets := [] |} in
  Home.error (Home.state (Home.handleSubmit None blank))
  = Some "Please enter a research question!" /\
  Home.sockets (Home.handleSubmit None blank) = [] /\
  Home.isLoading (Home.state (Home.handleSubmit None blank)) = false /\
  Home.error (Home.state (Home.handleSubmit None typed)) = None /\
  Home.sockets (Home.handleSubmit None typed)
  = [ {| WebSocket.readyState := WebSocket.CONNECTING;
         WebSocket.sent := [];
         WebSocket.closure_query := " gpu kernels " |} ] /\
  Home.sockets (App.page session_open)
  = [ {| WebSocket.readyState := WebSocket.OPEN;
         WebSocket.sent := [ {| WebSocket.query := "gpu kernels";
                                WebSocket.use_search := true;
                                WebSocket.mode := "ultra" |} ];
         WebSocket.closure_query := " gpu kernels " |} ].
Proof.
  intros blank typed.
  destruct (C9_one_request_after_open blank None
              (App.handle App.ClickResearch
                 (App.handle (App.Change " gpu kernels ") (App.init None sample_parser))) 0)
    as (Hblank & _ & Hopen & _).
  destruct (C9_one_request_after_open typed None session_open 0)
    as (_ & Htyped & _ & Hsent).
  split; [| split; [| split; [| split; [| split]]]].
  - rewrite Hblank; reflexivity.
  - rewrite Hblank; reflexivity.
  - rewrite Hblank; reflexivity.
  - reflexivity.
  - rewrite Htyped; [reflexivity | discriminate].
  - destruct Hopen as (ws & Hw & Hr & Hs).
    + apply (run_reachable [App.Change " gpu kernels "; App.ClickResearch]
               (App.init None sample_parser)); [constructor | reflexivity].
    + reflexivity.
    + specialize (Hsent session_open_reachable ws Hw).
      rewrite Hr in Hsent. reflexivity.
Defined.

(** ** At most one live socket *)
Section OneChannel.
Import WebSocket.

Lemma live_count_app l k :
  live_count (l ++ k) = (live_count l + live_count k)%nat.
Proof. unfold live_count. by rewrite List.filter_app, length_app. Qed.

Lemma live_count_alter f w l ws :
  l !! w = Some ws ->
  (live_count (alter f w l) + Nat.b2n (live ws)
   = live_count l + Nat.b2n (live (f ws)))%nat.
Proof.
  unfold live_count. revert w.
  induction l as [|y l IH]; intros [|w] Hw; simplify_eq/=.
  - destruct (live ws), (live (f ws)); simpl; lia.
  - specialize (IH w Hw). destruct (live y); simpl; lia.
Qed.

Lemma live_count_alter_le f w l :
  (forall ws, live (f ws) = true -> live ws = true) ->
  (live_count (alter f w l) <= live_count l)%nat.
Proof.
  intros Hf. unfold live_count. revert w.
  induction l as [|y l IH]; intros [|w]; simpl; [lia | lia | |].
  - specialize (Hf y). destruct (live (f y)), (live y); simpl; try lia.
    all: by specialize (Hf eq_refl).
  - specialize (IH w). change (alter f w l) with (list_alter f w l) in IH.
    destruct (live y); simpl; lia.
Qed.

Lemma one_channel_handleSubmit c x :
  Home.isLoading (Home.state x) = false ->
  one_channel x -> one_channel (Home.handleSubmit c x).
Proof.
  intros Hl [Hle Hzero]. specialize (Hzero Hl).
  unfold Home.handleSubmit, one_channel. case_bool_decide; simpl.
  - rewrite Hzero. split; [lia | done].
  - destruct c; simpl.
    + rewrite Hzero. split; [lia | done].
    + rewrite live_count_app, Hzero. split; [reflexivity | discriminate].
Qed.

Lemma one_channel_onmessage q w parsed x ws :
  Home.sockets x !! w = Some ws ->
  live ws = true ->
  one_channel x -> one_channel (Home.onmessage q w parsed x).
Proof.
  intros Hw Hlive [Hle Hzero]. unfold Home.onmessage, one_channel.
  pose proof (live_count_alter close w _ ws Hw) as Hclose.
  assert (live (close ws) = false) as Hdead by (by destruct ws as [[] ? ?]).
  rewrite Hlive, Hdead in Hclose. simpl in Hclose.
  destruct parsed as [data|]; [|done].
  repeat case_bool_decide; simpl; try done; split; intros; lia.
Qed.

Lemma one_channel_step e a :
  App.enabled e a = true ->
  one_channel (App.page a) -> one_channel (App.page (App.handle e a)).
Proof.
  intros Hen%enabled_offered Ha. rewrite page_handle.
  destruct e; simpl in Hen |- *.
  - exact Ha.
  - unfold SearchBar.textareaDisabled in Hen. apply negb_true_iff in Hen.
    destruct (SearchBar.handleKeyDown _ _ _ _); simpl; [|done].
    by apply one_channel_handleSubmit.
  - unfold SearchBar.buttonDisabled in Hen.
    apply negb_true_iff, orb_false_iff in Hen as [Hl _].
    by apply one_channel_handleSubmit.
  - exact Ha.
  - exact Ha.
  - exact Ha.
  - apply readyState_is_Some in Hen as (ws & Hw & Hr).
    pose proof (sockets_WsOpen w a ws Hw) as Hs.
    pose proof (state_WsOpen w a) as Hst. simpl in Hs, Hst.
    unfold one_channel. rewrite Hs, Hst.
    pose proof (live_count_alter
                  (fun s => send (request (closure_query s))
                              (with_readyState OPEN s)) w _ ws Hw) as Hc.
    replace (live ws) with true in Hc by (unfold live; by rewrite Hr).
    change (live (send (request (closure_query ws))
                    (with_readyState OPEN ws))) with true in Hc.
    simpl in Hc. destruct Ha as [Hle Hzero]. split; [lia|].
    intros Hl. specialize (Hzero Hl). lia.
  - apply readyState_is_Some in Hen as (ws & Hw & Hr).
    pose proof (page_WsMessage w parsed a ws Hw) as Hp. simpl in Hp.
    rewrite Hp. apply (one_channel_onmessage _ _ _ _ ws); [done | | done].
    unfold live. by rewrite Hr.
  - apply is_live_Some in Hen as (ws & Hw & Hl).
    pose proof (page_WsError w a ws Hw) as Hp. simpl in Hp. rewrite Hp.
    pose proof (live_count_alter (with_readyState CLOSED) w _ ws Hw) as Hc.
    rewrite Hl in Hc. simpl in Hc. destruct Ha as [Hle _].
    unfold one_channel. simpl. split; intros; lia.
  - pose proof (page_WsClose w a) as Hp. simpl in Hp. rewrite Hp.
    pose proof (live_count_alter_le (with_readyState CLOSED) w
                  (Home.sockets (App.page a))) as Hc.
    destruct Ha as [Hle Hzero]. unfold one_channel. simpl.
    split; [etrans; [apply Hc; by intros []|done]|].
    intros Hl. specialize (Hzero Hl).
    assert (live_count (alter (with_readyState CLOSED) w
              (Home.sockets (App.page a))) <= 0)%nat; [|lia].
    rewrite <- Hzero. apply Hc. by intros [].
Qed.

Lemma reachable_one_channel a :
  App.reachable a -> one_channel (App.page a).
Proof.
  induction 1 as [c | a e _ IH Hen]; [|by apply one_channel_step].
  split; [unfold live_count; simpl; lia | reflexivity].
Qed.

End OneChannel.

Lemma KeyDown_while_loading (a : App.t) (key : string) (shiftKey : bool) :
  Home.isLoading (Home.state (App.page a)) = true ->
  App.dispatch (App.KeyDown key shiftKey) a = a.
Proof.
  intros Hl. simpl. unfold SearchBar.handleKeyDown.
  rewrite Hl. by rewrite !andb_false_r.
Qed.

(** C6 (as amended): [handleSubmit] never closes a socket: it leaves every
    existing socket exactly as it is.  Two live sockets are excluded by the
    gate of [SearchBar] instead: in every reachable state at most one socket
    is connecting or open, and while one is, the Research button is disabled
    and no key press submits. *)
Theorem C6_submission_gated
    (x : Home.World) (c : option string) (w : nat) (ws : WebSocket.t)
    (a : App.t) :
  (Home.sockets x !! w = Some ws ->
   Home.sockets (Home.handleSubmit c x) !! w = Some ws) /\
  (App.reachable a -> (length (App.liveSockets a) <= 1)%nat) /\
  (App.reachable a -> App.liveSockets a <> [] ->
   App.enabled App.ClickResearch a = false /\
   forall key shiftKey, App.dispatch (App.KeyDown key shiftKey) a = a).
Proof.
  split; [| split].
  - intros Hw. unfold Home.handleSubmit. case_bool_decide; [done|].
    destruct c; simpl; [done|].
    rewrite lookup_app_l; [done | by eapply lookup_lt_Some].
  - intros Hreach. by destruct (reachable_one_channel a Hreach).
  - intros Hreach Hlive.
    destruct (reachable_one_channel a Hreach) as [_ Hzero].
    assert (Home.isLoading (Home.state (App.page a)) = true) as Hl.
    { destruct (Home.isLoading (Home.state (App.page a))); [done|].
      specialize (Hzero eq_refl). unfold live_count in Hzero.
      apply length_zero_iff_nil in Hzero. contradiction. }
    split.
    + apply not_offered. simpl. unfold SearchBar.buttonDisabled.
      by rewrite Hl.
    + intros key shiftKey. by apply KeyDown_while_loading.
Qed.

Lemma C6_witness :
  Home.sockets (Home.handleSubmit None (App.page session_open)) !! 0%nat
  = Some {| WebSocket.readyState := WebSocket.OPEN;
            WebSocket.sent := [request " gpu kernels "];
            WebSocket.closure_query := " gpu kernels " |}
  /\ (length (App.liveSockets session_open) <= 1)%nat
  /\ App.enabled App.ClickResearch session_open = false
  /\ App.dispatch (App.KeyDown "Enter" false) session_open = session_open.
Proof.
  destruct (C6_submission_gated (App.page session_open) None 0
              {| WebSocket.readyState := WebSocket.OPEN;
                 WebSocket.sent := [request " gpu kernels "];
                 WebSocket.closure_query := " gpu kernels " |}
              session_open) as (Hkeep & Hone & Hgate).
  split; [| split; [| split]].
  - apply Hkeep. reflexivity.
  - apply Hone. exact session_open_reachable.
  - apply Hgate; [exact session_open_reachable | discriminate].
  - apply Hgate; [exact session_open_reachable | discriminate].
Defined.

(** C6, the claim as stated fails: [handleSubmit] called while the socket of
    the running session is open leaves that socket open and opens a second
    one, so that two sockets are live. *)
Lemma C6_counterexample :
  let x := App.page session_open in
  let x' := Home.handleSubmit None x in
  WebSocket.readyState <$> Home.sockets x = [WebSocket.OPEN] /\
  WebSocket.readyState <$> Home.sockets x'
  = [WebSocket.OPEN; WebSocket.CONNECTING] /\
  live_count (Home.sockets x') = 2%nat.
Proof. repeat split. Qed.

(** ** No cancellation *)

Lemma dispatch_user_sockets (e : App.Event) (a : App.t) (w : nat) (ws : WebSocket.t) :
  App.user e = true ->
  Home.sockets (App.page a) !! w = Some ws ->
  Home.sockets (App.page (App.dispatch e a)) !! w = Some ws.
Proof.
  intros Hu Hw. destruct (sockets_user_other e a Hu) as [-> | ->]; [done|].
  unfold Home.handleSubmit. case_bool_decide; [done|].
  destruct (App.ctor a); simpl; [done|].
  rewrite lookup_app_l; [done | by eapply lookup_lt_Some].
Qed.

Lemma onmessage_state (q : string) (w : nat) (parsed : option Home.Data)
    (s : Home.State) (l1 l2 : list WebSocket.t) :
  Home.state (Home.onmessage q w parsed {| Home.state := s; Home.sockets := l1 |})
  = Home.state (Home.onmessage q w parsed {| Home.state := s; Home.sockets := l2 |}).
Proof.
  unfold Home.onmessage. destruct parsed as [data|]; [|done].
  by repeat case_bool_decide.
Qed.

(** C5 (as amended): the page has no cancel operation: every action of the
    user leaves each existing socket exactly as it is, so none closes a
    connecting or open socket.  The message handler has no staleness guard:
    what it writes to the page's state for a frame does not depend on the
    sockets, closed or not. *)
Theorem C5_no_cancel_no_staleness_guard
    (a : App.t) (e : App.Event) (w : nat) (ws : WebSocket.t)
    (q : string) (parsed : option Home.Data)
    (s : Home.State) (l1 l2 : list WebSocket.t) :
  (App.user e = true ->
   Home.sockets (App.page a) !! w = Some ws ->
   Home.sockets (App.page (App.handle e a)) !! w = Some ws) /\
  Home.state (Home.onmessage q w parsed {| Home.state := s; Home.sockets := l1 |})
  = Home.state (Home.onmessage q w parsed {| Home.state := s; Home.sockets := l2 |}).
Proof.
  split; [|apply onmessage_state].
  intros Hu Hw. rewrite page_handle. by apply dispatch_user_sockets.
Qed.

Lemma C5_witness :
  Home.sockets (App.page (App.handle App.ClickNewQuery session_open)) !! 0%nat
  = Home.sockets (App.page session_open) !! 0%nat.
Proof.
  apply (C5_no_cancel_no_staleness_guard session_open App.ClickNewQuery 0
           {| WebSocket.readyState := WebSocket.OPEN;
              WebSocket.sent := [request " gpu kernels "];
              WebSocket.closure_query := " gpu kernels " |}
           "" None Home.initial [] []);
    reflexivity.
Defined.

(** C5, the claim as stated fails: in the running session no action of the
    user, not even one the page has disabled, closes the open socket or ends
    loading; and the handler, run for a frame of a socket that is already
    closed, still replaces the status. *)
Lemma C5_counterexample :
  (forall e, App.user e = true ->
     App.readyState_is WebSocket.OPEN 0 (App.handle e session_open) = true /\
     Home.isLoading (Home.state (App.page (App.handle e session_open))) = true) /\
  App.is_live 0 session_closed = false /\
  Home.status (Home.state (App.page session_closed)) = "Starting..." /\
  Home.status (Home.state (App.page
    (App.handle (App.WsMessage 0 (Some (frame (Some "status") "Searching")))
       session_closed))) = "Searching".
Proof.
  split; [|repeat split].
  intros e Hu. destruct e; try discriminate; try (by repeat split).
  unfold App.handle. rewrite KeyDown_while_loading by reflexivity.
  by repeat split.
Qed.

(** ** The export exchange *)

Lemma enabled_PdfSettled (a : App.t) (i : nat) (o : PDFExportButton.FetchOutcome) :
  App.enabled (App.PdfSettled i o) a = true ->
  exists c, App.pdf a = Some c /\ PDFExportButton.instance c = i
            /\ PDFExportButton.isGenerating c = true.
Proof.
  intros Hen%enabled_offered. revert Hen.
  simpl. destruct (App.pdf a) as [c|]; [|discriminate].
  intros [Hi Hg]%andb_true_iff. apply bool_decide_eq_true in Hi. eauto.
Qed.

(** While the export button is mounted the tree is in place and the results
    panel is shown. *)
Lemma reachable_pdf_mounted (a : App.t) (c : PDFExportButton.t) :
  App.reachable a -> App.pdf a = Some c ->
  App.crashed a = false /\ App.throws a = false /\
  App.showsResults (Home.state (App.page a)) = true.
Proof.
  intros Hreach Hc.
  assert (App.crashed a = false) as Hcr.
  { destruct (App.crashed a) eqn:E; [|done].
    destruct (reachable_crashed_unmounted a Hreach E) as [_ Hp]. congruence. }
  split; [done|]. split; [by apply reachable_no_throw|].
  destruct (reachable_normal a Hreach Hcr) as [_ Hp]. rewrite Hc in Hp.
  by destruct (App.showsResults (Home.state (App.page a))).
Qed.

(** C8: the export exchange never touches the research session.  Starting
    it leaves the page's state and sockets as they are; when it fails, they
    are again left as they are, the [LoadingState] too, and the message is
    kept in the export button's own [error] cell. *)
Theorem C8_export_failure_is_local
    (a : App.t) (i : nat) (o : PDFExportButton.FetchOutcome) (message : string) :
  App.reachable a ->
  App.enabled (App.PdfSettled i o) a = true ->
  PDFExportButton.thrown o = Some message ->
  let a' := App.handle (App.PdfSettled i o) a in
  App.page (App.handle App.ClickPdf a) = App.page a /\
  App.page a' = App.page a /\
  App.loading a' = App.loading a /\
  exists c', App.pdf a' = Some c' /\
    PDFExportButton.isGenerating c' = false /\
    PDFExportButton.error c'
    = Some (JS.or_string (Some message) "Failed to generate PDF").
Proof.
  intros Hreach Hen Hthrown a'.
  apply enabled_PdfSettled in Hen as (c & Hc & _ & _).
  destruct (reachable_pdf_mounted a c Hreach Hc) as (Hcr & Hth & Hshow).
  destruct (reachable_normal a Hreach Hcr) as [Hloading _].
  split; [by rewrite page_handle|]. split; [by subst a'; rewrite page_handle|].
  subst a'. unfold App.handle.
  rewrite (render_normal (App.dispatch (App.PdfSettled i o) a) Hcr Hth).
  cbn [App.loading App.pdf App.dispatch App.with_pdf App.page].
  split; [by symmetry|]. rewrite Hshow, Hc. cbn.
  eexists. split; [reflexivity|].
  unfold PDFExportButton.handleDownload_settle. rewrite Hthrown. by split.
Qed.

Lemma session_exporting_reachable : App.reachable session_exporting.
Proof.
  apply (run_reachable export_events (App.init None sample_parser));
    [constructor | reflexivity].
Qed.

Lemma C8_witness :
  let a' := App.handle
              (App.PdfSettled 0
                 (PDFExportButton.NotOk None "Internal Server Error"))
              session_exporting in
  App.page a' = App.page session_exporting /\
  PDFExportButton.error <$> App.pdf a'
  = Some (Some "PDF generation failed: Internal Server Error").
Proof.
  destruct (C8_export_failure_is_local session_exporting 0
              (PDFExportButton.NotOk None "Internal Server Error")
              "PDF generation failed: Internal Server Error")
    as (_ & Hpage & _ & c' & Hpdf & _ & Herr).
  - exact session_exporting_reachable.
  - reflexivity.
  - reflexivity.
  - split; [exact Hpage|]. rewrite Hpdf. simpl. rewrite Herr. reflexivity.
Defined.

(** ** The sources panel *)

(** C10: when every source is of type arxiv or web, the two filtered lists
    of [ResultsDisplay] split the sources: together they hold each source
    as often as the original list does, no source is in both, each keeps the
    original order, and the total shown is the sum of their lengths, which is
    the number of sources. *)
Theorem C10_sources_partition (result : Research.ResearchResponse) :
  Forall (fun s => Research.source_type s = "arxiv"
                   \/ Research.source_type s = "web")
         (Research.sources result) ->
  ResultsDisplay.arxivSources result ++ ResultsDisplay.webSources result
    ≡ₚ Research.sources result /\
  (forall s, s ∈ ResultsDisplay.arxivSources result ->
             s ∉ ResultsDisplay.webSources result) /\
  ResultsDisplay.arxivSources result `sublist_of` Research.sources result /\
  ResultsDisplay.webSources result `sublist_of` Research.sources result /\
  ResultsDisplay.totalSources result
  = (length (ResultsDisplay.arxivSources result)
     + length (ResultsDisplay.webSources result))%nat /\
  ResultsDisplay.totalSources result = length (Research.sources result).
Proof.
  intros Hkinds.
  assert (ResultsDisplay.arxivSources result ++ ResultsDisplay.webSources result
            ≡ₚ Research.sources result) as Hperm.
  { unfold ResultsDisplay.arxivSources, ResultsDisplay.webSources.
    induction Hkinds as [|s l [Hs | Hs] _ IH]; [done | |].
    - rewrite filter_cons_True by done.
      rewrite (filter_cons_False (fun s => Research.source_type s = "web"))
        by (rewrite Hs; discriminate).
      simpl. by f_equiv.
    - rewrite filter_cons_False by (rewrite Hs; discriminate).
      rewrite (filter_cons_True (fun s => Research.source_type s = "web"))
        by done.
      rewrite <- Permutation_middle. by f_equiv. }
  split; [exact Hperm|]. split; [| split; [| split; [| split]]].
  - intros s [Ha _]%list_elem_of_filter [Hw _]%list_elem_of_filter.
    rewrite Ha in Hw. discriminate.
  - apply sublist_filter.
  - apply sublist_filter.
  - reflexivity.
  - unfold ResultsDisplay.totalSources.
    by rewrite <- length_app, Hperm.
Qed.

Lemma C10_witness :
  let result := assembled "q" result_frame in
  ResultsDisplay.totalSources result = 2%nat /\
  ResultsDisplay.arxivSources result ++ ResultsDisplay.webSources result
    ≡ₚ Research.sources result.
Proof.
  destruct (C10_sources_partition (assembled "q" result_frame))
    as (Hperm & _ & _ & _ & _ & Htotal).
  - simpl. repeat (constructor; [(by left) || (by right)|]). constructor.
  - split; [rewrite Htotal; reflexivity | exact Hperm].
Defined.

(** * Further properties of the code *)

(** ** Strings *)
Section StringFacts.

Lemma app_cons (c : ascii) (s t : string) :
  String c s +:+ t = String c (s +:+ t).
Proof. reflexivity. Qed.

Lemma app_nil_r (s : string) : s +:+ "" = s.
Proof. induction s as [|c s IH]; [done|]. by rewrite app_cons, IH. Qed.

Lemma app_assoc (s t u : string) : (s +:+ t) +:+ u = s +:+ t +:+ u.
Proof. induction s as [|c s IH]; [done|]. by rewrite !app_cons, IH. Qed.

Lemma rev_app_app (s t : string) :
  String.rev_app s t = String.rev s +:+ t.
Proof.
  unfold String.rev. revert t. induction s as [|c s IH]; intros t; [done|].
  simpl. rewrite (IH (String c t)), (IH (String c "")).
  by rewrite app_assoc.
Qed.

Lemma rev_cons (c : ascii) (s : string) :
  String.rev (String c s) = String.rev s +:+ String c "".
Proof. unfold String.rev at 1. simpl. apply rev_app_app. Qed.

Lemma rev_app (s t : string) :
  String.rev (s +:+ t) = String.rev t +:+ String.rev s.
Proof.
  induction s as [|c s IH]; [by rewrite app_nil_r|].
  by rewrite app_cons, !rev_cons, IH, app_assoc.
Qed.

Lemma rev_rev (s : string) : String.rev (String.rev s) = s.
Proof.
  induction s as [|c s IH]; [done|]. by rewrite rev_cons, rev_app, IH.
Qed.

(** An occurrence of a string is an occurrence of each of its suffixes. *)
Lemma includes_suffix (n pre t : string) :
  JS.includes n (pre +:+ t) = true -> JS.includes n t = true.
Proof.
  rewrite !includes_app. intros (a & b & ->).
  exists (a +:+ pre), b. by rewrite !app_assoc.
Qed.

Lemma blank_app (s t : string) : blank (s +:+ t) = blank s && blank t.
Proof.
  induction s as [|c s IH]; [done|].
  rewrite app_cons. simpl. by rewrite IH, andb_assoc.
Qed.

Lemma blank_rev (s : string) : blank (String.rev s) = blank s.
Proof.
  induction s as [|c s IH]; [done|].
  rewrite rev_cons, blank_app, IH. simpl. by rewrite andb_true_r, andb_comm.
Qed.

Lemma trimStart_blank (ws s : string) :
  blank ws = true -> JS.trimStart (ws +:+ s) = JS.trimStart s.
Proof.
  induction ws as [|c ws IH]; [done|]. intros Hb.
  cbn [blank] in Hb. apply andb_true_iff in Hb as [Hc Hws].
  rewrite app_cons. cbn [JS.trimStart]. rewrite Hc. auto.
Qed.

(** [trimStart] takes a blank prefix off. *)
Lemma trimStart_split (s : string) :
  exists ws, blank ws = true /\ s = ws +:+ JS.trimStart s.
Proof.
  induction s as [|c s (ws & Hws & IH)]; [by exists ""|]. simpl.
  destruct (JS.isWhiteSpace c) eqn:Hc.
  - exists (String c ws). simpl. rewrite Hc, Hws, app_cons. by rewrite <- IH.
  - by exists "".
Qed.

Lemma trimStart_trimmed (s : string) : trimmed_start (JS.trimStart s).
Proof.
  unfold trimmed_start. induction s as [|c s IH]; [done|]. simpl.
  destruct (JS.isWhiteSpace c) eqn:Hc; [done|]. simpl. by rewrite Hc.
Qed.

Lemma trimStart_length (s : string) :
  (String.length (JS.trimStart s) <= String.length s)%nat.
Proof.
  induction s as [|c s IH]; [done|]. simpl.
  destruct (JS.isWhiteSpace c); simpl; lia.
Qed.

Lemma trimmed_start_cons (c : ascii) (r : string) :
  trimmed_start (String c r) <-> JS.isWhiteSpace c = false.
Proof.
  unfold trimmed_start. simpl. destruct (JS.isWhiteSpace c); split; try done.
  intros H. pose proof (trimStart_length r) as Hlen.
  rewrite H in Hlen. simpl in Hlen. lia.
Qed.

Lemma trimmed_start_prefix (p q : string) :
  trimmed_start (p +:+ q) -> p <> "" -> trimmed_start p.
Proof.
  destruct p as [|c p]; [done|]. rewrite app_cons.
  rewrite !trimmed_start_cons. auto.
Qed.

Lemma trimStart_blank_empty (t : string) :
  blank t = true -> JS.trimStart t = "".
Proof.
  induction t as [|c t IH]; [done|]. intros Hb.
  cbn [blank] in Hb. apply andb_true_iff in Hb as [Hc Ht].
  cbn [JS.trimStart]. rewrite Hc. auto.
Qed.

(** White space after a string that does not begin with any stays where it
    is under [trimStart]. *)
Lemma trimStart_app_trimmed (t post : string) :
  trimmed_start t -> t <> "" -> JS.trimStart (t +:+ post) = t +:+ post.
Proof.
  destruct t as [|c r]; [done|]. intros Ht%trimmed_start_cons _.
  rewrite app_cons. cbn [JS.trimStart]. by rewrite Ht.
Qed.

Lemma trimEnd_blank (s ws : string) :
  blank ws = true -> JS.trimEnd (s +:+ ws) = JS.trimEnd s.
Proof.
  intros Hws. unfold JS.trimEnd.
  by rewrite rev_app, trimStart_blank by (by rewrite blank_rev).
Qed.

Lemma trimEnd_split (s : string) :
  exists ws, blank ws = true /\ s = JS.trimEnd s +:+ ws.
Proof.
  destruct (trimStart_split (String.rev s)) as (ws & Hws & Hs).
  exists (String.rev ws). split; [by rewrite blank_rev|].
  unfold JS.trimEnd. rewrite <- rev_app, <- Hs. by rewrite rev_rev.
Qed.

(** [trim] leaves nothing for a second [trim] to take off. *)
Lemma trim_trim (s : string) : JS.trim (JS.trim s) = JS.trim s.
Proof.
  unfold JS.trim.
  assert (trimmed_start (JS.trimEnd (JS.trimStart s))) as Hstart.
  { destruct (trimEnd_split (JS.trimStart s)) as (ws & _ & Hs).
    destruct (decide (JS.trimEnd (JS.trimStart s) = "")) as [-> | Hne];
      [done|].
    apply (trimmed_start_prefix _ ws); [|done].
    rewrite <- Hs. apply trimStart_trimmed. }
  rewrite Hstart. unfold JS.trimEnd.
  by rewrite rev_rev, (trimStart_trimmed (String.rev (JS.trimStart s))).
Qed.

(** White space around a string does not survive [trim]. *)
Lemma trim_blank (pre s post : string) :
  blank pre = true -> blank post = true ->
  JS.trim (pre +:+ s +:+ post) = JS.trim s.
Proof.
  intros Hpre Hpost. unfold JS.trim. rewrite trimStart_blank by done.
  destruct (trimStart_split s) as (ws & Hws & Hs).
  destruct (decide (JS.trimStart s = "")) as [Hempty | Hne].
  - rewrite Hempty. rewrite Hs, Hempty, app_nil_r.
    rewrite trimStart_blank_empty; [done|].
    by rewrite blank_app, Hws, Hpost.
  - assert (JS.trimStart (s +:+ post) = JS.trimStart s +:+ post) as ->.
    { rewrite Hs at 1. rewrite app_assoc, trimStart_blank by done.
      apply trimStart_app_trimmed; [apply trimStart_trimmed | done]. }
    by apply trimEnd_blank.
Qed.

End StringFacts.

(** ** More on [stageToProgress] *)
Section StageFacts.
Import LoadingState.

Lemma isWhiteSpace_toLowerCaseUnit (c : ascii) :
  JS.isWhiteSpace (JS.toLowerCaseUnit c) = JS.isWhiteSpace c.
Proof. by destruct c as [[] [] [] [] [] [] [] []]. Qed.

Lemma toLowerCaseUnit_idem (c : ascii) :
  JS.toLowerCaseUnit (JS.toLowerCaseUnit c) = JS.toLowerCaseUnit c.
Proof. by destruct c as [[] [] [] [] [] [] [] []]. Qed.

Lemma toLowerCase_idem (s : string) :
  JS.toLowerCase (JS.toLowerCase s) = JS.toLowerCase s.
Proof.
  induction s as [|c s IH]; [done|]. simpl.
  by rewrite toLowerCaseUnit_idem, IH.
Qed.

Lemma toLowerCase_app (s t : string) :
  JS.toLowerCase (s +:+ t) = JS.toLowerCase s +:+ JS.toLowerCase t.
Proof.
  induction s as [|c s IH]; [done|].
  rewrite app_cons. cbn [JS.toLowerCase]. by rewrite IH, app_cons.
Qed.

Lemma toLowerCase_rev (s : string) :
  JS.toLowerCase (String.rev s) = String.rev (JS.toLowerCase s).
Proof.
  induction s as [|c s IH]; [done|]. cbn [JS.toLowerCase].
  by rewrite !rev_cons, toLowerCase_app, IH.
Qed.

Lemma toLowerCase_trimStart (s : string) :
  JS.toLowerCase (JS.trimStart s) = JS.trimStart (JS.toLowerCase s).
Proof.
  induction s as [|c s IH]; [done|]. cbn [JS.toLowerCase JS.trimStart].
  rewrite isWhiteSpace_toLowerCaseUnit.
  by destruct (JS.isWhiteSpace c).
Qed.

(** Lower-casing and trimming can be done in either order. *)
Lemma toLowerCase_trim (s : string) :
  JS.toLowerCase (JS.trim s) = JS.trim (JS.toLowerCase s).
Proof.
  unfold JS.trim, JS.trimEnd.
  by rewrite toLowerCase_rev, toLowerCase_trimStart, toLowerCase_rev,
    toLowerCase_trimStart.
Qed.

Lemma stageToProgress_normalized (s1 s2 : string) :
  normalized s1 = normalized s2 -> stageToProgress s1 = stageToProgress s2.
Proof. unfold normalized, stageToProgress. by intros ->. Qed.

Lemma critiquing_shadows (n : string) :
  JS.includes n "re-critiquing" = true -> JS.includes n "critiquing" = true.
Proof. apply (includes_suffix n "re-" "critiquing"). Qed.

Lemma first_match_not_7 (n : string) : ~ first_match n 7.
Proof.
  intros [[e [He Hin]] Hbefore]. injection He as <-.
  apply critiquing_shadows in Hin.
  by rewrite (Hbefore 5%nat "critiquing") in Hin by (lia || done).
Qed.

End StageFacts.

(** Membership in a list that is written out. *)
Ltac in_list :=
  repeat first [apply list_elem_of_here | apply list_elem_of_further].

Ltac not_in_list H :=
  repeat (apply elem_of_cons in H as [H | H]; [discriminate H|]);
  by apply elem_of_nil in H.

Lemma stageToProgress_values (label : string) :
  LoadingState.stageToProgress label ∈ progress_values.
Proof.
  destruct (first_match_or_none (normalized label)) as [[i Hi] | Hnone].
  - rewrite (stageToProgress_first _ _ Hi).
    pose proof (first_match_lt _ _ Hi) as Hlt.
    do 7 (destruct i as [|i]; [vm_compute; in_list|]).
    destruct i as [|i]; [by apply first_match_not_7 in Hi|].
    do 3 (destruct i as [|i]; [vm_compute; in_list|]). lia.
  - rewrite (stageToProgress_none _ Hnone). unfold progress_values. in_list.
Qed.

Lemma progress_values_range (v : Z) : v ∈ progress_values -> 8 <= v <= 100.
Proof.
  intros Hv. unfold progress_values in Hv.
  repeat (apply elem_of_cons in Hv as [-> | Hv]; [lia|]).
  by apply elem_of_nil in Hv.
Qed.

(** X1: whatever the label, [stageToProgress] returns 8 or one of
    9, 18, 27, 36, 45, 55, 64, 82, 91, 100.  The value 73 of the eighth
    catalog entry, "re-critiquing", is never returned, since every label
    that contains it contains the sixth entry "critiquing" too. *)
Theorem X1_stageToProgress_values (label : string) :
  LoadingState.stageToProgress label
    ∈ [8; 9; 18; 27; 36; 45; 55; 64; 82; 91; 100] /\
  percent 7 = 73 /\
  LoadingState.stageToProgress label <> 73.
Proof.
  pose proof (stageToProgress_values label) as Hin.
  split; [exact Hin | split; [reflexivity|]].
  intros Heq. rewrite Heq in Hin. unfold progress_values in Hin.
  not_in_list Hin.
Qed.

(** X2: a label that contains "re-critiquing" is matched by an entry no
    later than "critiquing": its progress is between 9 and 55, and it is 55,
    the value of "critiquing", when none of the five entries before
    "critiquing" occurs in the label. *)
Theorem X2_recritiquing_counts_as_critiquing (label : string) :
  JS.includes (normalized label) "re-critiquing" = true ->
  9 <= LoadingState.stageToProgress label <= 55 /\
  ((forall e, e ∈ take 5 LoadingState.STAGE_ORDER ->
              JS.includes (normalized label) e = false) ->
   LoadingState.stageToProgress label = percent 5).
Proof.
  intros Hre. pose proof (critiquing_shadows _ Hre) as Hcrit. split.
  - destruct (first_match_or_none (normalized label)) as [[i Hi] | Hnone].
    + rewrite (stageToProgress_first _ _ Hi).
      destruct Hi as [_ Hbefore].
      do 6 (destruct i as [|i]; [by vm_compute|]).
      by rewrite (Hbefore 5%nat "critiquing") in Hcrit by (lia || done).
    + rewrite (Hnone "critiquing") in Hcrit; [done|].
      unfold LoadingState.STAGE_ORDER. in_list.
  - intros Hfive. apply stageToProgress_first.
    split; [by exists "critiquing"|].
    intros j e Hj He. apply Hfive.
    apply list_elem_of_lookup. exists j.
    rewrite lookup_take_lt by lia. exact He.
Qed.

Lemma X2_witness :
  LoadingState.stageToProgress "Re-critiquing the draft" = 55.
Proof.
  destruct (X2_recritiquing_counts_as_critiquing "Re-critiquing the draft")
    as [_ Hfive]; [reflexivity|].
  apply Hfive. intros e He.
  repeat (apply elem_of_cons in He as [-> | He]; [reflexivity|]).
  by apply elem_of_nil in He.
Defined.

(** X3: the progress of a label does not depend on the case of its
    letters: two labels with the same lower-case form get the same value. *)
Theorem X3_stageToProgress_ignores_case (s1 s2 : string) :
  JS.toLowerCase s1 = JS.toLowerCase s2 ->
  LoadingState.stageToProgress s1 = LoadingState.stageToProgress s2.
Proof.
  intros Heq. apply stageToProgress_normalized. unfold normalized.
  by rewrite !toLowerCase_trim, Heq.
Qed.

Lemma X3_witness :
  LoadingState.stageToProgress "ANALYZING Papers"
  = LoadingState.stageToProgress "analyzing papers".
Proof.
  apply (X3_stageToProgress_ignores_case "ANALYZING Papers" "analyzing papers").
  reflexivity.
Defined.

(** X4: the progress of a label does not depend on white space before or
    after it. *)
Theorem X4_stageToProgress_ignores_outer_space (pre label post : string) :
  blank pre = true ->
  blank post = true ->
  LoadingState.stageToProgress (pre +:+ label +:+ post)
  = LoadingState.stageToProgress label.
Proof.
  intros Hpre Hpost. apply stageToProgress_normalized. unfold normalized.
  by rewrite trim_blank.
Qed.

Lemma X4_witness :
  LoadingState.stageToProgress ("  " +:+ "Saving" +:+ " ")
  = LoadingState.stageToProgress "Saving".
Proof.
  apply (X4_stageToProgress_ignores_outer_space "  " "Saving" " ");
    reflexivity.
Defined.

Lemma percent_mono (j i : nat) :
  (j <= i)%nat -> (i < 11)%nat -> 9 <= percent j <= percent i.
Proof.
  intros Hji Hi.
  do 11 (destruct j as [|j];
         [do 11 (destruct i as [|i]; [try lia; by vm_compute|]); lia|]).
  lia.
Qed.

(** X5: a catalog keyword in a label bounds its progress from above: a label
    that contains the keyword of ordinal [i] gets at least 9 and at most the
    value of that keyword, and less than it only when a keyword earlier in
    the catalog occurs in the label too. *)
Theorem X5_keyword_bounds_progress (label : string) (i : nat) (entry : string) :
  LoadingState.STAGE_ORDER !! i = Some entry ->
  JS.includes (normalized label) entry = true ->
  9 <= LoadingState.stageToProgress label <= percent i /\
  (LoadingState.stageToProgress label <> percent i ->
   exists j e, (j < i)%nat /\ LoadingState.STAGE_ORDER !! j = Some e /\
               JS.includes (normalized label) e = true).
Proof.
  intros Hi Hin.
  destruct (first_match_or_none (normalized label)) as [[j Hj] | Hnone].
  - rewrite (stageToProgress_first _ _ Hj).
    assert (j <= i)%nat as Hji.
    { destruct (decide (j <= i)%nat) as [|Hgt]; [done|].
      destruct Hj as [_ Hbefore].
      rewrite (Hbefore i entry) in Hin by (lia || done). done. }
    split; [apply percent_mono; [done | exact (lookup_lt_Some _ _ _ Hi)]|].
    intros Hne. destruct (decide (j = i)) as [-> | Hji']; [done|].
    destruct Hj as [(e & He & Hine) _]. exists j, e. repeat split; [lia|done..].
  - rewrite (Hnone entry) in Hin; [done|].
    apply list_elem_of_lookup. by exists i.
Qed.

Lemma X5_witness :
  9 <= LoadingState.stageToProgress "Revising after planning" <= 64.
Proof.
  apply (X5_keyword_bounds_progress "Revising after planning" 6 "revising");
    reflexivity.
Defined.

(** ** What is mounted, and what [LoadingState] shows *)
Section Mounted.
Import LoadingState.

(** The handlers of the sockets never start loading. *)
Lemma dispatch_socket_isLoading (e : App.Event) (a : App.t) :
  App.user e = false ->
  Home.isLoading (Home.state (App.page a)) = false ->
  Home.isLoading (Home.state (App.page (App.dispatch e a))) = false.
Proof.
  intros Hu Hl. destruct e; try discriminate; simpl; try done;
    unfold App.on_handlers; simpl;
    repeat match goal with
           | |- context [match ?l !! ?w with _ => _ end] =>
               destruct (l !! w)
           end; simpl; try done.
  unfold Home.onmessage. destruct parsed as [data|]; [|done].
  by repeat case_bool_decide.
Qed.

(** The page of a removed tree is not loading. *)
Lemma reachable_crashed_idle (a : App.t) :
  App.reachable a -> App.crashed a = true ->
  Home.isLoading (Home.state (App.page a)) = false.
Proof.
  induction 1 as [c u | a e _ IH Hen]; [discriminate|].
  intros Hc. rewrite page_handle. unfold App.handle, App.render in Hc.
  rewrite dispatch_crashed in Hc.
  destruct (App.crashed a) eqn:Hca.
  - apply dispatch_socket_isLoading; [|by apply IH].
    destruct (App.user e) eqn:Hu; [|done].
    by rewrite (enabled_uncrashed e a Hen Hu) in Hca.
  - destruct (App.throws (App.dispatch e a)) eqn:Ht; [|discriminate].
    unfold App.throws, App.showsResults in Ht.
    by destruct (Home.isLoading (Home.state (App.page (App.dispatch e a)))).
Qed.

Lemma reachable_loading (a : App.t) :
  App.reachable a ->
  App.loading a
  = App.render_loading (Home.state (App.page a)) (App.loading a).
Proof.
  intros Hreach. destruct (App.crashed a) eqn:Hc.
  - destruct (reachable_crashed_unmounted a Hreach Hc) as [-> _].
    unfold App.render_loading.
    by rewrite (reachable_crashed_idle a Hreach Hc).
  - by destruct (reachable_normal a Hreach Hc).
Qed.

Lemma reachable_pdf (a : App.t) :
  App.reachable a ->
  App.showsResults (Home.state (App.page a)) = false -> App.pdf a = None.
Proof.
  intros Hreach Hshow. destruct (App.crashed a) eqn:Hc.
  - by destruct (reachable_crashed_unmounted a Hreach Hc).
  - destruct (reachable_normal a Hreach Hc) as [_ Hp].
    by rewrite Hshow in Hp.
Qed.

Lemma reachable_unmounted (a : App.t) :
  App.reachable a ->
  Home.isLoading (Home.state (App.page a)) = false -> App.loading a = None.
Proof.
  intros Hreach Hl. rewrite (reachable_loading a Hreach).
  unfold App.render_loading. by rewrite Hl.
Qed.

Lemma max_values (v p : Z) :
  v ∈ progress_values -> p ∈ progress_values -> Z.max v p ∈ progress_values.
Proof. intros Hv Hp. by destruct (Z.max_spec v p) as [[_ ->] | [_ ->]]. Qed.

Lemma display_ok_render (a : App.t) :
  (forall c, App.loading a = Some c ->
             deps c <= displayProgress c /\ displayProgress c ∈ progress_values
             /\ App.crashed a = false) ->
  display_ok (App.render a).
Proof.
  intros Hc. unfold display_ok, App.render, App.render_loading.
  destruct (App.crashed a) eqn:Hcr.
  { destruct (App.loading a) as [c|]; [|done].
    by destruct (Hc c eq_refl) as (_ & _ & ?). }
  destruct (App.throws a); simpl; [done|].
  destruct (Home.isLoading (Home.state (App.page a))); [|done].
  pose proof (stageToProgress_values (Home.status (Home.state (App.page a))))
    as Hp.
  destruct (App.loading a) as [c|].
  - destruct (Hc c eq_refl) as (Hle & Hin & _).
    destruct (rerender_display (Home.status (Home.state (App.page a))) c Hle)
      as [-> _].
    split; [by apply max_values | lia].
  - unfold mount, effect. simpl. rewrite Z.max_id. split; [done | lia].
Qed.

Lemma display_ok_handle (e : App.Event) (a : App.t) :
  loading_ok a -> display_ok a -> display_ok (App.handle e a).
Proof.
  intros Hok Hd. apply display_ok_render.
  rewrite dispatch_loading, dispatch_crashed.
  intros c Hc. unfold loading_ok, display_ok in *. rewrite Hc in Hok, Hd.
  split; [apply Hok | split; [apply Hd | apply Hok]].
Qed.

Lemma reachable_display_ok (a : App.t) : App.reachable a -> display_ok a.
Proof.
  induction 1 as [c | a e Hreach IH _]; [exact I|].
  apply display_ok_handle; [by apply reachable_loading_ok | done].
Qed.

End Mounted.

(** X6: in every reachable state [LoadingState] is mounted exactly while the
    page is loading, and what it displays is one of the catalog's values,
    between 8 and 100, and not behind the progress of the stage the page is
    at. *)
Theorem X6_display_in_range_and_caught_up (a : App.t) :
  App.reachable a ->
  (is_Some (App.loading a) <->
   Home.isLoading (Home.state (App.page a)) = true) /\
  (forall c, App.loading a = Some c ->
     8 <= LoadingState.displayProgress c <= 100 /\
     LoadingState.stageToProgress (Home.status (Home.state (App.page a)))
     <= LoadingState.displayProgress c).
Proof.
  intros Hreach. split.
  - rewrite (reachable_loading a Hreach). unfold App.render_loading.
    destruct (Home.isLoading (Home.state (App.page a))); split;
      (done || by intros [? ?] || eauto).
  - intros c Hc. pose proof (reachable_display_ok a Hreach) as Hd.
    unfold display_ok in Hd. rewrite Hc in Hd. destruct Hd as [Hin Hle].
    split; [by apply progress_values_range | done].
Qed.

Lemma X6_witness :
  is_Some (App.loading session_open) /\
  forall c, App.loading session_open = Some c ->
    8 <= LoadingState.displayProgress c <= 100.
Proof.
  destruct (X6_display_in_range_and_caught_up session_open
              session_open_reachable) as [Hmounted Hrange].
  split; [by apply Hmounted|].
  intros c Hc. by apply Hrange.
Defined.

(** X7: every submission starts the progress display afresh at 8: when a
    non-blank question is submitted and the socket is created,
    [LoadingState] is mounted anew and shows 8, whatever an earlier session
    displayed. *)
Theorem X7_submission_starts_at_8 (a : App.t) (e : App.Event) :
  App.reachable a ->
  submits e ->
  App.enabled e a = true ->
  JS.trim (Home.query (Home.state (App.page a))) <> "" ->
  App.ctor a = None ->
  App.loading a = None /\
  shown (App.handle e a) = Some 8 /\
  Home.status (Home.state (App.page (App.handle e a))) = "Starting...".
Proof.
  intros Hreach He Hen Hq Hctor.
  assert (App.crashed a = false) as Hc.
  { apply (enabled_uncrashed e a Hen). by destruct He as [-> | ->]. }
  pose proof (enabled_offered e a Hen) as Hof.
  assert (Home.isLoading (Home.state (App.page a)) = false) as Hl.
  { destruct He as [-> | ->]; simpl in Hof.
    - unfold SearchBar.buttonDisabled in Hof.
      by apply negb_true_iff, orb_false_iff in Hof as [Hl _].
    - by apply negb_true_iff in Hof. }
  pose proof (reachable_unmounted a Hreach Hl) as Hnone.
  split; [exact Hnone|].
  unfold shown, App.handle. rewrite (dispatch_submits e a He Hen Hq), Hctor.
  rewrite render_normal; [| exact Hc |].
  - unfold App.render_loading, App.with_page, Home.handleSubmit.
    cbn [App.page App.loading]. rewrite (bool_decide_eq_false_2 _ Hq).
    cbn. rewrite Hnone. split; reflexivity.
  - apply throws_loading. unfold App.with_page, Home.handleSubmit.
    cbn [App.page]. by rewrite (bool_decide_eq_false_2 _ Hq).
Qed.

Lemma X7_witness :
  shown (App.handle App.ClickResearch
           (App.handle (App.Change "again")
              (App.handle App.ClickNewQuery
                 (App.handle (App.WsMessage 0 (Some result_frame))
                    (App.handle
                       (App.WsMessage 0 (Some (frame (Some "status") "Saving")))
                       session_open)))))
  = Some 8.
Proof.
  apply (X7_submission_starts_at_8
           (App.handle (App.Change "again")
              (App.handle App.ClickNewQuery
                 (App.handle (App.WsMessage 0 (Some result_frame))
                    (App.handle
                       (App.WsMessage 0 (Some (frame (Some "status") "Saving")))
                       session_open))))
           App.ClickResearch).
  - repeat (apply App.reachable_step; [|reflexivity]).
    exact session_open_reachable.
  - by left.
  - reflexivity.
  - discriminate.
  - reflexivity.
Defined.

(** ** Report and error *)
Section Exclusive.
Import WebSocket.

Lemma live_count_lookup (l : list WebSocket.t) (w : nat) (ws : WebSocket.t) :
  l !! w = Some ws -> live ws = true -> (1 <= live_count l)%nat.
Proof.
  unfold live_count. revert w.
  induction l as [|y l IH]; intros [|w] Hw Hlive; simplify_eq/=.
  - rewrite Hlive. simpl. lia.
  - specialize (IH w Hw Hlive). destruct (live y); simpl; lia.
Qed.

(** A live socket means the page is loading. *)
Lemma live_loading (x : Home.World) (w : nat) (ws : WebSocket.t) :
  one_channel x ->
  Home.sockets x !! w = Some ws -> live ws = true ->
  Home.isLoading (Home.state x) = true.
Proof.
  intros [_ Hzero] Hw Hlive.
  destruct (Home.isLoading (Home.state x)); [done|].
  pose proof (live_count_lookup _ w ws Hw Hlive). specialize (Hzero eq_refl). lia.
Qed.

Lemma exclusive_handleSubmit (c : option string) (x : Home.World) :
  JS.trim (Home.query (Home.state x)) <> "" ->
  exclusive (Home.state (Home.handleSubmit c x)).
Proof.
  intros Hq. unfold Home.handleSubmit. rewrite (bool_decide_eq_false_2 _ Hq).
  destruct c; split; simpl; try discriminate; try (by intros [? ?]).
  by intros _.
Qed.

Lemma exclusive_onmessage q w parsed (x : Home.World) :
  Home.isLoading (Home.state x) = true ->
  exclusive (Home.state x) ->
  exclusive (Home.state (Home.onmessage q w parsed x)).
Proof.
  intros Hl [Hload Hres]. destruct (Hload Hl) as [Hr He].
  unfold Home.onmessage. destruct parsed as [data|]; [|by split].
  repeat case_bool_decide; simpl.
  - by split.
  - split; simpl; [discriminate | by intros _].
  - split; simpl; [discriminate | rewrite Hr; by intros [? ?]].
  - by split.
Qed.

Lemma exclusive_step (e : App.Event) (a : App.t) :
  App.enabled e a = true ->
  one_channel (App.page a) ->
  exclusive (Home.state (App.page a)) ->
  exclusive (Home.state (App.page (App.handle e a))).
Proof.
  intros Hen%enabled_offered Hone Hex. rewrite page_handle. destruct e.
  - exact Hex.
  - simpl in *. destruct (SearchBar.handleKeyDown _ _ _ _) eqn:Hk; [|done].
    apply exclusive_handleSubmit.
    unfold SearchBar.handleKeyDown in Hk.
    apply andb_true_iff in Hk as [_ Hq]. apply negb_true_iff in Hq.
    by apply bool_decide_eq_false in Hq.
  - simpl in *. unfold SearchBar.buttonDisabled in Hen.
    apply negb_true_iff, orb_false_iff in Hen as [_ Hq].
    apply exclusive_handleSubmit. by apply bool_decide_eq_false in Hq.
  - destruct Hex as [Hload _]. split; simpl; [|by intros [? ?]].
    intros Hl. by split.
  - exact Hex.
  - exact Hex.
  - by rewrite state_WsOpen.
  - apply readyState_is_Some in Hen as (ws & Hw & Hr).
    rewrite (page_WsMessage w parsed a ws Hw).
    apply exclusive_onmessage; [|done].
    apply (live_loading _ w ws); [done | done |]. unfold live. by rewrite Hr.
  - apply is_live_Some in Hen as (ws & Hw & Hlive).
    rewrite (page_WsError w a ws Hw).
    pose proof (live_loading _ w ws Hone Hw Hlive) as Hl.
    destruct Hex as [Hload _]. destruct (Hload Hl) as [Hr _].
    split; simpl; [done|]. rewrite Hr. by intros [? ?].
  - by rewrite page_WsClose.
Qed.

Lemma reachable_exclusive (a : App.t) :
  App.reachable a -> exclusive (Home.state (App.page a)).
Proof.
  induction 1 as [c | a e Hreach IH Hen].
  - split; simpl; [done | by intros [? ?]].
  - apply exclusive_step; [done | by apply reachable_one_channel | done].
Qed.

End Exclusive.

Lemma session_closed_reachable : App.reachable session_closed.
Proof.
  change (App.reachable
            (App.handle (App.WsMessage 0 (Some error_frame)) session_open)).
  apply App.reachable_step; [exact session_open_reachable | reflexivity].
Qed.

(** X8: in every reachable state the page holds a report or an error but
    never both, and neither of them while it is loading. *)
Theorem X8_report_and_error_exclusive (a : App.t) :
  App.reachable a ->
  (Home.isLoading (Home.state (App.page a)) = true ->
   Home.result (Home.state (App.page a)) = None /\
   Home.error (Home.state (App.page a)) = None) /\
  ~ (is_Some (Home.result (Home.state (App.page a))) /\
     is_Some (Home.error (Home.state (App.page a)))).
Proof.
  intros Hreach. destruct (reachable_exclusive a Hreach) as [Hload Hres].
  split; [exact Hload|]. intros [Hr [m He]]. rewrite (Hres Hr) in He. done.
Qed.

Lemma X8_witness :
  Home.result (Home.state (App.page session_closed)) = None /\
  is_Some (Home.error (Home.state (App.page session_closed))).
Proof.
  destruct (X8_report_and_error_exclusive session_closed
              session_closed_reachable) as [_ Hnot].
  split; [|by eexists].
  destruct (Home.result (Home.state (App.page session_closed))) eqn:Hr;
    [|done].
  exfalso. apply Hnot. split; by eexists.
Defined.

(** ** The ways a session ends in failure *)

(** X9: an error frame delivered in a reachable state ends the session in
    failure: the frame's content becomes the page's error as it is, no
    report is held, loading ends, [LoadingState] is unmounted and no socket
    is left connecting or open. *)
Theorem X9_error_frame_ends_session (a : App.t) (w : nat) (d : Home.Data) :
  App.reachable a ->
  App.enabled (App.WsMessage w (Some d)) a = true ->
  Home.type d = Some "error" ->
  let a' := App.handle (App.WsMessage w (Some d)) a in
  Home.error (Home.state (App.page a')) = Some (Home.content d) /\
  Home.result (Home.state (App.page a')) = None /\
  Home.isLoading (Home.state (App.page a')) = false /\
  App.loading a' = None /\
  App.liveSockets a' = [].
Proof.
  intros Hreach Hen Hty a'.
  assert (App.reachable a') as Hreach' by (by apply App.reachable_step).
  pose proof (reachable_one_channel a Hreach) as Hone.
  destruct (reachable_exclusive a Hreach) as [Hload _].
  pose proof (enabled_offered _ _ Hen) as Hopen.
  apply readyState_is_Some in Hopen as (ws & Hw & Hr).
  assert (WebSocket.live ws = true) as Hlive
    by (unfold WebSocket.live; by rewrite Hr).
  destruct (Hload (live_loading _ w ws Hone Hw Hlive)) as [Hres _].
  assert (Home.state (App.page a')
          = Home.setIsLoading false
              (Home.setError (Some (Home.content d)) (Home.state (App.page a))))
    as Hstate.
  { subst a'. rewrite page_handle, (page_WsMessage w (Some d) a ws Hw).
    unfold Home.onmessage. rewrite Hty.
    rewrite !bool_decide_eq_false_2 by discriminate.
    by rewrite bool_decide_eq_true_2. }
  split; [by rewrite Hstate|]. split; [by rewrite Hstate|].
  split; [by rewrite Hstate|]. split.
  - apply reachable_unmounted; [done | by rewrite Hstate].
  - destruct (reachable_one_channel a' Hreach') as [_ Hzero].
    apply length_zero_iff_nil, Hzero. by rewrite Hstate.
Qed.

Lemma X9_witness :
  Home.error (Home.state (App.page session_closed)) = Some "Research failed" /\
  App.liveSockets session_closed = [].
Proof.
  destruct (X9_error_frame_ends_session session_open 0 error_frame)
    as (Herr & _ & _ & _ & Hlive).
  - exact session_open_reachable.
  - reflexivity.
  - reflexivity.
  - split; [exact Herr | exact Hlive].
Defined.

(** X10: an error event on a connecting or open socket, in a reachable
    state, ends the session in failure: the page's error is the fixed
    connection message, no report is held, loading ends and no socket is
    left connecting or open. *)
Theorem X10_connection_error_ends_session (a : App.t) (w : nat) :
  App.reachable a ->
  App.enabled (App.WsError w) a = true ->
  let a' := App.handle (App.WsError w) a in
  Home.error (Home.state (App.page a'))
  = Some "Connection failed. Make sure backend is running." /\
  Home.result (Home.state (App.page a')) = None /\
  Home.isLoading (Home.state (App.page a')) = false /\
  App.loading a' = None /\
  App.liveSockets a' = [].
Proof.
  intros Hreach Hen a'.
  assert (App.reachable a') as Hreach' by (by apply App.reachable_step).
  pose proof (reachable_one_channel a Hreach) as Hone.
  destruct (reachable_exclusive a Hreach) as [Hload _].
  pose proof (enabled_offered _ _ Hen) as Hlive.
  apply is_live_Some in Hlive as (ws & Hw & Hlive).
  destruct (Hload (live_loading _ w ws Hone Hw Hlive)) as [Hres _].
  assert (Home.state (App.page a')
          = Home.setIsLoading false
              (Home.setError
                 (Some "Connection failed. Make sure backend is running.")
                 (Home.state (App.page a))))
    as Hstate.
  { subst a'. by rewrite page_handle, (page_WsError w a ws Hw). }
  split; [by rewrite Hstate|]. split; [by rewrite Hstate|].
  split; [by rewrite Hstate|]. split.
  - apply reachable_unmounted; [done | by rewrite Hstate].
  - destruct (reachable_one_channel a' Hreach') as [_ Hzero].
    apply length_zero_iff_nil, Hzero. by rewrite Hstate.
Qed.

Lemma X10_witness :
  let a := App.handle App.ClickResearch
             (App.handle (App.Change "why") (App.init None sample_parser)) in
  Home.error (Home.state (App.page (App.handle (App.WsError 0) a)))
  = Some "Connection failed. Make sure backend is running." /\
  App.liveSockets (App.handle (App.WsError 0) a) = [].
Proof.
  destruct (X10_connection_error_ends_session
              (App.handle App.ClickResearch
                 (App.handle (App.Change "why") (App.init None sample_parser))) 0)
    as (Herr & _ & _ & _ & Hlive).
  - repeat (apply App.reachable_step; [|reflexivity]). constructor.
  - reflexivity.
  - split; [exact Herr | exact Hlive].
Defined.

(** ** A connection that closes without a final frame *)
Section Stalled.
Import WebSocket.

Lemma stalled_no_live (a : App.t) (w : nat) (ws : WebSocket.t) :
  stalled a -> Home.sockets (App.page a) !! w = Some ws -> live ws = false.
Proof.
  intros [_ Hzero] Hw. destruct (live ws) eqn:Hlive; [|done].
  pose proof (live_count_lookup _ w ws Hw Hlive). lia.
Qed.

(** In a stalled state only close events can occur, and they leave the
    page's state alone. *)
Lemma stalled_step (e : App.Event) (a : App.t) :
  App.reachable a -> stalled a -> App.enabled e a = true ->
  Home.state (App.page (App.handle e a)) = Home.state (App.page a)
  /\ stalled (App.handle e a).
Proof.
  intros Hreach Hst Hen%enabled_offered. pose proof Hst as [Hl Hzero].
  assert (App.pdf a = None) as Hpdf.
  { apply reachable_pdf; [done|]. unfold App.showsResults. by rewrite Hl. }
  destruct e; simpl in Hen;
    unfold SearchBar.textareaDisabled, SearchBar.buttonDisabled,
      App.showsResults in Hen;
    rewrite ?Hl, ?Hpdf in Hen; try discriminate.
  - apply readyState_is_Some in Hen as (ws & Hw & Hr).
    pose proof (stalled_no_live a w ws Hst Hw) as Hdead.
    unfold live in Hdead. rewrite Hr in Hdead. discriminate Hdead.
  - apply readyState_is_Some in Hen as (ws & Hw & Hr).
    pose proof (stalled_no_live a w ws Hst Hw) as Hdead.
    unfold live in Hdead. rewrite Hr in Hdead. discriminate Hdead.
  - apply is_live_Some in Hen as (ws & Hw & Hlive).
    by rewrite (stalled_no_live a w ws Hst Hw) in Hlive.
  - unfold stalled. rewrite page_handle, page_WsClose. split; [done|].
    split; [exact Hl|]. simpl.
    pose proof (live_count_alter_le (with_readyState CLOSED) w
                  (Home.sockets (App.page a))) as Hle.
    assert (live_count (alter (with_readyState CLOSED) w
              (Home.sockets (App.page a))) <= live_count
                (Home.sockets (App.page a)))%nat by (apply Hle; by intros []).
    lia.
Qed.

Lemma stalled_run (es : list App.Event) (a b : App.t) :
  App.reachable a -> stalled a -> App.run es a = Some b ->
  Home.state (App.page b) = Home.state (App.page a) /\ stalled b.
Proof.
  revert a. induction es as [|e es IH]; intros a Hreach Hst Hrun;
    simpl in Hrun.
  - by injection Hrun as <-.
  - unfold App.step in Hrun.
    destruct (App.enabled e a) eqn:Hen; [|discriminate].
    destruct (stalled_step e a Hreach Hst Hen) as [Heq Hst'].
    destruct (IH (App.handle e a)) as [Heq' Hst'']; [by constructor|done..|].
    split; [congruence | done].
Qed.

End Stalled.

(** X11: when the connection of a loading session closes without a result
    or error frame and without an error event, the page is stuck: [onclose]
    does nothing, so the page keeps loading, and whatever happens afterwards
    its state never changes again. *)
Theorem X11_close_without_final_frame_hangs
    (a b : App.t) (w : nat) (es : list App.Event) :
  App.reachable a ->
  App.is_live w a = true ->
  App.run es (App.handle (App.WsClose w) a) = Some b ->
  App.enabled (App.WsClose w) a = true /\
  Home.isLoading (Home.state (App.page b)) = true /\
  Home.state (App.page b) = Home.state (App.page a) /\
  App.liveSockets b = [].
Proof.
  intros Hreach Hlive Hrun.
  pose proof (reachable_one_channel a Hreach) as Hone.
  pose proof Hlive as Hlive'.
  apply is_live_Some in Hlive' as (ws & Hw & Hws).
  pose proof (live_loading _ w ws Hone Hw Hws) as Hl.
  assert (App.enabled (App.WsClose w) a = true) as Hen.
  { apply offered_enabled; [done|].
    simpl. unfold App.readyState_is. rewrite Hw.
    rewrite bool_decide_eq_false_2, bool_decide_eq_true_2; [done..|].
    intros Hr. unfold WebSocket.live in Hws. by rewrite Hr in Hws. }
  assert (stalled (App.handle (App.WsClose w) a)) as Hst.
  { unfold stalled. rewrite page_handle, page_WsClose. split; [exact Hl|].
    simpl.
    pose proof (live_count_alter (WebSocket.with_readyState WebSocket.CLOSED)
                  w _ ws Hw) as Hc.
    rewrite Hws in Hc. simpl in Hc. destruct Hone as [Hle _]. lia. }
  destruct (stalled_run es _ b (App.reachable_step a _ Hreach Hen) Hst Hrun)
    as [Heq [Hlb Hzero]].
  split; [done|]. split; [done|]. split.
  - rewrite Heq. by rewrite page_handle, page_WsClose.
  - by apply length_zero_iff_nil.
Qed.

Lemma X11_witness :
  let b := App.handle (App.WsClose 0) session_open in
  Home.isLoading (Home.state (App.page b)) = true /\
  App.liveSockets b = [] /\
  App.enabled App.ClickResearch b = false.
Proof.
  destruct (X11_close_without_final_frame_hangs session_open
              (App.handle (App.WsClose 0) session_open) 0 [])
    as (_ & Hl & _ & Hlive).
  - exact session_open_reachable.
  - reflexivity.
  - reflexivity.
  - split; [exact Hl | split; [exact Hlive | reflexivity]].
Defined.

(** ** The life of a socket *)
Section Ages.
Import WebSocket.

Lemma ages_refl l : ages l l.
Proof. intros i ws Hi. eauto. Qed.

Lemma ages_trans l1 l2 l3 : ages l1 l2 -> ages l2 l3 -> ages l1 l3.
Proof.
  intros H12 H23 i ws Hi.
  destruct (H12 i ws Hi) as (ws2 & Hi2 & Hq2 & Hr2).
  destruct (H23 i ws2 Hi2) as (ws3 & Hi3 & Hq3 & Hr3).
  exists ws3. repeat split; [done | congruence | lia].
Qed.

Lemma ages_alter f w l :
  (forall ws, l !! w = Some ws ->
     closure_query (f ws) = closure_query ws /\
     (rank (readyState ws) <= rank (readyState (f ws)))%nat) ->
  ages l (alter f w l).
Proof.
  intros Hf i ws Hi. destruct (decide (w = i)) as [->|Hne].
  - exists (f ws). rewrite list_lookup_alter_eq, Hi.
    split; [done | by apply Hf].
  - exists ws. by rewrite list_lookup_alter_ne.
Qed.

Lemma ages_app l k : ages l (l ++ k).
Proof.
  intros i ws Hi. exists ws. split; [|done].
  rewrite lookup_app_l; [done | by eapply lookup_lt_Some].
Qed.

Lemma rank_close ws : (rank (readyState ws) <= rank (readyState (close ws)))%nat.
Proof. destruct ws as [[] ? ?]; simpl; lia. Qed.

Lemma rank_closed ws :
  (rank (readyState ws) <= rank (readyState (with_readyState CLOSED ws)))%nat.
Proof. destruct ws as [[] ? ?]; simpl; lia. Qed.

Lemma ages_handleSubmit c x :
  ages (Home.sockets x) (Home.sockets (Home.handleSubmit c x)).
Proof.
  unfold Home.handleSubmit. case_bool_decide; [apply ages_refl|].
  destruct c; simpl; [apply ages_refl | apply ages_app].
Qed.

Lemma ages_onmessage q w parsed x :
  ages (Home.sockets x) (Home.sockets (Home.onmessage q w parsed x)).
Proof.
  unfold Home.onmessage. destruct parsed as [data|]; [|apply ages_refl].
  repeat case_bool_decide; simpl; try apply ages_refl;
    apply ages_alter; intros ws _;
    (split; [apply keeps_closure_close | apply rank_close]).
Qed.

Lemma ages_step e a :
  App.enabled e a = true ->
  ages (Home.sockets (App.page a)) (Home.sockets (App.page (App.handle e a))).
Proof.
  intros Hen%enabled_offered. rewrite page_handle.
  destruct (App.user e) eqn:Hu.
  - destruct (sockets_user_other e a Hu) as [-> | ->];
      [apply ages_refl | apply ages_handleSubmit].
  - destruct e; try discriminate.
    + apply ages_refl.
    + apply readyState_is_Some in Hen as (ws & Hw & Hr).
      rewrite (sockets_WsOpen w a ws Hw). apply ages_alter.
      intros s Hs. assert (s = ws) as -> by congruence. split.
      * by rewrite keeps_closure_send.
      * rewrite Hr. simpl. lia.
    + apply readyState_is_Some in Hen as (ws & Hw & Hr).
      rewrite (page_WsMessage w parsed a ws Hw). apply ages_onmessage.
    + apply is_live_Some in Hen as (ws & Hw & Hl).
      rewrite (page_WsError w a ws Hw). simpl.
      apply ages_alter. intros s _. split; [done | apply rank_closed].
    + rewrite page_WsClose. simpl.
      apply ages_alter. intros s _. split; [done | apply rank_closed].
Qed.

Lemma ages_run es a b :
  App.run es a = Some b ->
  ages (Home.sockets (App.page a)) (Home.sockets (App.page b)).
Proof.
  revert a. induction es as [|e es IH]; intros a Hrun; simpl in Hrun.
  - injection Hrun as <-. apply ages_refl.
  - unfold App.step in Hrun.
    destruct (App.enabled e a) eqn:Hen; [|discriminate].
    eapply ages_trans; [by apply ages_step | by apply IH].
Qed.

End Ages.

(** X12: sockets are never dropped, reordered or revived: over any run of
    events a socket stays at its position in the list, keeps the query its
    handlers closed over, and its readyState only moves forward from
    CONNECTING to OPEN to CLOSING to CLOSED; in particular a socket that is
    no longer connecting or open never becomes so again. *)
Theorem X12_sockets_only_age
    (a b : App.t) (es : list App.Event) (w : nat) (ws : WebSocket.t) :
  App.run es a = Some b ->
  Home.sockets (App.page a) !! w = Some ws ->
  exists ws',
    Home.sockets (App.page b) !! w = Some ws' /\
    WebSocket.closure_query ws' = WebSocket.closure_query ws /\
    (rank (WebSocket.readyState ws) <= rank (WebSocket.readyState ws'))%nat /\
    (WebSocket.live ws = false -> WebSocket.live ws' = false).
Proof.
  intros Hrun Hw.
  destruct (ages_run es a b Hrun w ws Hw) as (ws' & Hw' & Hq & Hr).
  exists ws'. repeat split; try done.
  destruct ws as [[] ? ?], ws' as [[] ? ?]; simpl in *; (done || lia).
Qed.

Lemma X12_witness :
  exists ws',
    Home.sockets (App.page session_exporting) !! 0%nat = Some ws' /\
    WebSocket.closure_query ws' = " gpu kernels " /\
    (1 <= rank (WebSocket.readyState ws'))%nat.
Proof.
  destruct (X12_sockets_only_age session_open session_exporting
              [App.WsMessage 0 (Some result_frame); App.ClickPdf] 0
              {| WebSocket.readyState := WebSocket.OPEN;
                 WebSocket.sent := [request " gpu kernels "];
                 WebSocket.closure_query := " gpu kernels " |})
    as (ws' & Hw & Hq & Hr & _); [reflexivity | reflexivity |].
  exists ws'. split; [exact Hw | split; [exact Hq | exact Hr]].
Defined.

(** ** Submitting through the search bar *)

(** X13: through the search bar [handleSubmit] never takes its blank-query
    branch: after an event of the user that can occur, the page's error is
    the one it had, or none, or the message of the failed WebSocket
    constructor; and a socket is created only for a question that is not
    blank, while the page is not loading. *)
Theorem X13_blank_query_branch_unreachable (a : App.t) (e : App.Event) :
  App.user e = true ->
  App.enabled e a = true ->
  let x := App.page a in
  let x' := App.page (App.handle e a) in
  (Home.error (Home.state x') = Home.error (Home.state x) \/
   Home.error (Home.state x') = None \/
   (is_Some (App.ctor a) /\ Home.error (Home.state x') = App.ctor a)) /\
  (Home.sockets x' = Home.sockets x \/
   (Home.sockets x'
    = Home.sockets x ++ [WebSocket.create (Home.query (Home.state x))] /\
    JS.trim (Home.query (Home.state x)) <> "" /\
    Home.isLoading (Home.state x) = false)).
Proof.
  intros Hu Hen%enabled_offered x x'. subst x x'. rewrite page_handle.
  assert (forall c y,
            JS.trim (Home.query (Home.state y)) <> "" ->
            Home.isLoading (Home.state y) = false ->
            (Home.error (Home.state (Home.handleSubmit c y))
               = Home.error (Home.state y) \/
             Home.error (Home.state (Home.handleSubmit c y)) = None \/
             (is_Some c /\ Home.error (Home.state (Home.handleSubmit c y)) = c))
            /\
            (Home.sockets (Home.handleSubmit c y) = Home.sockets y \/
             (Home.sockets (Home.handleSubmit c y)
              = Home.sockets y ++ [WebSocket.create (Home.query (Home.state y))]
              /\ JS.trim (Home.query (Home.state y)) <> ""
              /\ Home.isLoading (Home.state y) = false))) as Hsubmit.
  { intros c y Hq Hl. unfold Home.handleSubmit.
    rewrite (bool_decide_eq_false_2 _ Hq). destruct c as [m|]; simpl.
    - split; [right; right; by split | by left].
    - split; [right; by left | right; by repeat split]. }
  destruct e; try discriminate; simpl in Hen |- *.
  - split; by left.
  - unfold SearchBar.textareaDisabled in Hen. apply negb_true_iff in Hen.
    destruct (SearchBar.handleKeyDown _ _ _ _) eqn:Hk; [|split; by left].
    apply Hsubmit; [|done]. unfold SearchBar.handleKeyDown in Hk.
    apply andb_true_iff in Hk as [_ Hq]. apply negb_true_iff in Hq.
    by apply bool_decide_eq_false in Hq.
  - unfold SearchBar.buttonDisabled in Hen.
    apply negb_true_iff, orb_false_iff in Hen as [Hl Hq].
    apply Hsubmit; [by apply bool_decide_eq_false in Hq | done].
  - split; [right; by left | by left].
  - split; by left.
Qed.

Lemma X13_witness :
  let a := App.handle (App.Change "   ") (App.init None sample_parser) in
  App.enabled (App.KeyDown "Enter" false) a = true /\
  Home.error (Home.state (App.page (App.handle (App.KeyDown "Enter" false) a)))
  = None /\
  Home.sockets (App.page (App.handle (App.KeyDown "Enter" false) a)) = [].
Proof.
  destruct (X13_blank_query_branch_unreachable
              (App.handle (App.Change "   ") (App.init None sample_parser))
              (App.KeyDown "Enter" false)) as [_ _]; [reflexivity..|].
  repeat split.
Defined.

(** ** The requests that are sent *)
Section Asked.
Import WebSocket.

Lemma asked_handleSubmit c x : asked x -> asked (Home.handleSubmit c x).
Proof.
  intros Hx. unfold asked, Home.handleSubmit. case_bool_decide as Hq; [done|].
  destruct c; simpl; [done|].
  apply Forall_app. split; [done|]. constructor; [exact Hq | constructor].
Qed.

Lemma asked_alter f w x :
  keeps_closure f -> asked x -> asked (Home.on_socket w f x).
Proof.
  intros Hf Hx. unfold asked. simpl. apply Forall_alter; [done|].
  intros ws _ Hws. by rewrite Hf.
Qed.

Lemma asked_onmessage q w parsed x :
  asked x -> asked (Home.onmessage q w parsed x).
Proof.
  intros Hx. unfold Home.onmessage. destruct parsed as [data|]; [|done].
  repeat case_bool_decide.
  - exact Hx.
  - apply (asked_alter close w); [apply keeps_closure_close | exact Hx].
  - apply (asked_alter close w); [apply keeps_closure_close | exact Hx].
  - exact Hx.
Qed.

Lemma asked_step e a :
  App.enabled e a = true ->
  asked (App.page a) -> asked (App.page (App.handle e a)).
Proof.
  intros Hen%enabled_offered Ha. rewrite page_handle.
  destruct e; simpl in Hen |- *; try done.
  - destruct (SearchBar.handleKeyDown _ _ _ _); [|done].
    by apply asked_handleSubmit.
  - by apply asked_handleSubmit.
  - apply readyState_is_Some in Hen as (ws & Hw & Hr).
    pose proof (sockets_WsOpen w a ws Hw) as Hs. simpl in Hs.
    unfold asked. rewrite Hs. apply Forall_alter; [done|].
    intros s _ Hq. by rewrite keeps_closure_send.
  - apply readyState_is_Some in Hen as (ws & Hw & Hr).
    pose proof (page_WsMessage w parsed a ws Hw) as Hp. simpl in Hp.
    rewrite Hp. by apply asked_onmessage.
  - apply is_live_Some in Hen as (ws & Hw & Hl).
    pose proof (page_WsError w a ws Hw) as Hp. simpl in Hp. rewrite Hp.
    by apply (asked_alter (with_readyState CLOSED)).
  - pose proof (page_WsClose w a) as Hp. simpl in Hp. rewrite Hp.
    by apply (asked_alter (with_readyState CLOSED)).
Qed.

Lemma reachable_asked a : App.reachable a -> asked (App.page a).
Proof.
  induction 1 as [c | a e _ IH Hen]; [constructor | by apply asked_step].
Qed.

End Asked.

(** X14: every request a socket has sent, in any reachable state, is
    {query, use_search = true, mode = ultra} with the trimmed question of
    its submission as query; that query is never empty and has no white
    space left at either end. *)
Theorem X14_requests_carry_trimmed_question
    (a : App.t) (w : nat) (ws : WebSocket.t) (r : WebSocket.Request) :
  App.reachable a ->
  Home.sockets (App.page a) !! w = Some ws ->
  r ∈ WebSocket.sent ws ->
  WebSocket.query r = JS.trim (WebSocket.closure_query ws) /\
  WebSocket.use_search r = true /\
  WebSocket.mode r = "ultra" /\
  WebSocket.query r <> "" /\
  JS.trim (WebSocket.query r) = WebSocket.query r.
Proof.
  intros Hreach Hw Hr.
  pose proof (proj1 (Forall_lookup _ _) (reachable_sent_ok a Hreach) w ws Hw)
    as Hsent.
  pose proof (proj1 (Forall_lookup _ _) (reachable_asked a Hreach) w ws Hw)
    as Hasked. simpl in Hasked.
  assert (r = request (WebSocket.closure_query ws)) as ->.
  { unfold sent_ok in Hsent.
    destruct (WebSocket.readyState ws);
      try destruct Hsent as [Hsent | Hsent]; rewrite Hsent in Hr;
      first [by apply elem_of_nil in Hr
            | by apply list_elem_of_singleton in Hr]. }
  simpl. repeat split; [done | apply trim_trim].
Qed.

Lemma X14_witness :
  WebSocket.query (request " gpu kernels ") = "gpu kernels" /\
  JS.trim "gpu kernels" = "gpu kernels".
Proof.
  destruct (X14_requests_carry_trimmed_question session_open 0
              {| WebSocket.readyState := WebSocket.OPEN;
                 WebSocket.sent := [request " gpu kernels "];
                 WebSocket.closure_query := " gpu kernels " |}
              (request " gpu kernels "))
    as (Hq & _ & _ & _ & Htrim).
  - exact session_open_reachable.
  - reflexivity.
  - apply list_elem_of_here.
  - split; [exact Hq | exact Htrim].
Defined.

(** ** Sources of other types *)

(** X15: a source whose type is neither arxiv nor web is left out of both
    lists and of the count: the total shown plus the number of such sources
    is the number of sources, so the total equals the number of sources
    exactly when every source is of type arxiv or web. *)
Theorem X15_other_sources_not_counted (result : Research.ResearchResponse) :
  (ResultsDisplay.totalSources result + length (otherSources result)
   = length (Research.sources result))%nat /\
  (ResultsDisplay.totalSources result = length (Research.sources result) <->
   Forall (fun s => Research.source_type s = "arxiv"
                    \/ Research.source_type s = "web")
          (Research.sources result)).
Proof.
  unfold ResultsDisplay.totalSources, ResultsDisplay.arxivSources,
    ResultsDisplay.webSources, otherSources.
  assert (forall l : list Research.Source,
    (length (filter (fun s => Research.source_type s = "arxiv") l)
     + length (filter (fun s => Research.source_type s = "web") l)
     + length (filter (fun s => Research.source_type s <> "arxiv"
                                /\ Research.source_type s <> "web") l)
     = length l)%nat /\
    (filter (fun s => Research.source_type s <> "arxiv"
                      /\ Research.source_type s <> "web") l = [] <->
     Forall (fun s => Research.source_type s = "arxiv"
                      \/ Research.source_type s = "web") l)) as Hcount.
  { induction l as [|s l [IHlen IHall]]; [by split|].
    rewrite !filter_cons, Forall_cons.
    destruct (decide (Research.source_type s = "arxiv")) as [Ha | Hna].
    - rewrite decide_False by (rewrite Ha; discriminate).
      rewrite decide_False by (intros [? _]; done).
      simpl. split; [lia|]. rewrite IHall. split; [by split; [left|] | by intros [_ ?]].
    - destruct (decide (Research.source_type s = "web")) as [Hw | Hnw].
      + rewrite decide_False by (intros [_ ?]; done).
        simpl. split; [lia|]. rewrite IHall.
        split; [by split; [right|] | by intros [_ ?]].
      + rewrite decide_True by done. simpl. split; [lia|].
        split; [done | by intros [[?|?] _]]. }
  destruct (Hcount (Research.sources result)) as [Hlen Hall].
  split; [exact Hlen|]. rewrite <- Hall. split.
  - intros Heq. apply length_zero_iff_nil. lia.
  - intros Hnil. rewrite Hnil in Hlen. simpl in Hlen. lia.
Qed.

(** ** The outcome of an export *)
Section Pdf.

Lemma pdf_ok_handle (e : App.Event) (a : App.t) :
  pdf_ok a -> pdf_ok (App.handle e a).
Proof.
  intros Ha.
  assert (pdf_ok (App.dispatch e a)) as Hd.
  { unfold pdf_ok in *. destruct e; simpl; try done.
    - by destruct (SearchBar.handleKeyDown _ _ _ _).
    - by destruct (App.pdf a).
    - destruct (App.pdf a); [|done]. simpl.
      unfold PDFExportButton.handleDownload_settle.
      by destruct (PDFExportButton.thrown o). }
  unfold App.handle, App.render.
  destruct (App.crashed (App.dispatch e a)); [exact Hd|].
  destruct (App.throws (App.dispatch e a)); [exact I|].
  unfold pdf_ok in *. simpl.
  destruct (App.showsResults _); [|done].
  by destruct (App.pdf (App.dispatch e a)).
Qed.

Lemma reachable_pdf_ok (a : App.t) : App.reachable a -> pdf_ok a.
Proof.
  induction 1 as [c | a e _ IH _]; [exact I | by apply pdf_ok_handle].
Qed.

Lemma or_string_fallback (m d : string) :
  d <> "" -> JS.or_string (Some m) d <> "".
Proof. intros Hd. unfold JS.or_string. by case_bool_decide. Qed.

End Pdf.

(** X16: when an export settles in a reachable state the button stops
    generating; after a download it shows no error, and after a failure it
    shows a message that is never empty: the response's detail when there is
    one, else "PDF generation failed: " followed by the status text, and for
    a thrown error its message, or "Failed to generate PDF" when that is
    empty. *)
Theorem X16_export_outcome
    (a : App.t) (i : nat) (o : PDFExportButton.FetchOutcome) :
  App.reachable a ->
  App.enabled (App.PdfSettled i o) a = true ->
  exists c',
    App.pdf (App.handle (App.PdfSettled i o) a) = Some c' /\
    PDFExportButton.isGenerating c' = false /\
    match o with
    | PDFExportButton.Downloaded => PDFExportButton.error c' = None
    | PDFExportButton.NotOk detail statusText =>
        PDFExportButton.error c'
        = Some (JS.or_string detail ("PDF generation failed: " +:+ statusText))
    | PDFExportButton.Thrown message =>
        PDFExportButton.error c'
        = Some (JS.or_string (Some message) "Failed to generate PDF")
    end /\
    (o <> PDFExportButton.Downloaded ->
     exists m, PDFExportButton.error c' = Some m /\ m <> "").
Proof.
  intros Hreach Hen.
  pose proof (reachable_pdf_ok a Hreach) as Hok.
  apply enabled_PdfSettled in Hen as (c & Hc & _ & Hgen).
  unfold pdf_ok in Hok. rewrite Hc in Hok. specialize (Hok Hgen).
  destruct (reachable_pdf_mounted a c Hreach Hc) as (Hcr & Hth & Hshow).
  unfold App.handle.
  rewrite (render_normal (App.dispatch (App.PdfSettled i o) a) Hcr Hth).
  cbn [App.pdf App.dispatch App.with_pdf App.page]. rewrite Hshow, Hc. cbn.
  eexists. split; [reflexivity|].
  unfold PDFExportButton.handleDownload_settle.
  assert (forall d st,
            JS.or_string d ("PDF generation failed: " +:+ st) <> "") as Hdetail.
  { intros d st. unfold JS.or_string. destruct d as [d|]; [|done].
    case_bool_decide; done. }
  destruct o as [|detail statusText|message]; simpl.
  - split; [done|]. split; [exact Hok | done].
  - split; [done|]. split.
    + f_equal. unfold JS.or_string at 1. case_bool_decide as He; [|done].
      by apply Hdetail in He.
    + intros _. eexists. split; [reflexivity|].
      apply or_string_fallback. discriminate.
  - split; [done|]. split; [done|].
    intros _. eexists. split; [reflexivity|].
    apply or_string_fallback. discriminate.
Qed.

Lemma X16_witness :
  PDFExportButton.error <$>
    App.pdf (App.handle (App.PdfSettled 0 (PDFExportButton.Thrown ""))
               session_exporting)
  = Some (Some "Failed to generate PDF").
Proof.
  destruct (X16_export_outcome session_exporting 0 (PDFExportButton.Thrown ""))
    as (c' & Hpdf & _ & Herr & _).
  - exact session_exporting_reachable.
  - reflexivity.
  - rewrite Hpdf. simpl. rewrite Herr. reflexivity.
Defined.

(** ** The socket's URL *)
Section Url.

Lemma dropPrefix_app (t rest : string) :
  JS.dropPrefix (t +:+ rest) t = Some rest.
Proof.
  induction t as [|c t IH]; [done|]. rewrite app_cons. simpl.
  by rewrite bool_decide_eq_true_2.
Qed.

Lemma dropPrefix_startsWith (s t : string) :
  JS.startsWith s t = false -> JS.dropPrefix s t = None.
Proof.
  revert s. induction t as [|c t IH]; intros s; simpl; [done|].
  destruct s as [|a s]; [done|].
  case_bool_decide; simpl; [apply IH | done].
Qed.

End Url.

(** X17: the socket's URL is the back-end URL with a leading "http" turned
    into "ws" and "/ws" appended, so that an https back end gets a wss
    socket; a back-end URL that does not begin with "http" (in lower case)
    keeps its scheme.  An unset or empty setting gives
    ws://localhost:8000/ws. *)
Theorem X17_wsUrl_scheme (env : option string) (rest : string) :
  (Home.backendUrl env = "http" +:+ rest ->
   Home.wsUrl env = "ws" +:+ rest +:+ "/ws") /\
  (JS.startsWith (Home.backendUrl env) "http" = false ->
   Home.wsUrl env = Home.backendUrl env +:+ "/ws") /\
  Home.wsUrl (Some ("https://" +:+ rest)) = "wss://" +:+ rest +:+ "/ws" /\
  Home.wsUrl None = "ws://localhost:8000/ws" /\
  Home.wsUrl (Some "") = "ws://localhost:8000/ws".
Proof.
  split; [| split; [| split; [| split]]].
  - intros Hurl. unfold Home.wsUrl, JS.replaceStart.
    by rewrite Hurl, dropPrefix_app, !app_assoc.
  - intros Hs. unfold Home.wsUrl, JS.replaceStart.
    by rewrite dropPrefix_startsWith.
  - reflexivity.
  - reflexivity.
  - reflexivity.
Qed.

Lemma X17_witness :
  Home.wsUrl (Some "http://backend:8000") = "ws://backend:8000/ws" /\
  Home.wsUrl (Some "backend:8000") = "backend:8000/ws".
Proof.
  destruct (X17_wsUrl_scheme (Some "http://backend:8000") "://backend:8000")
    as (Hhttp & _).
  destruct (X17_wsUrl_scheme (Some "backend:8000") "")
    as (_ & Hother & _).
  split; [by apply Hhttp | by apply Hother].
Defined.

(** ** Starting over *)

(** X18: New Query, which is offered only while a report is shown, takes the
    page back to its start: report, error and question are cleared, the
    results panel with its export button is unmounted, and the sockets,
    the status and the loading flag are left alone.  Since the question is
    then empty, nothing can be submitted before the user types: the Research
    button is disabled and no key press submits. *)
Theorem X18_new_query_resets (a : App.t) :
  App.reachable a ->
  App.enabled App.ClickNewQuery a = true ->
  let a' := App.handle App.ClickNewQuery a in
  Home.state (App.page a')
  = {| Home.query := ""; Home.isLoading := false;
       Home.error := None; Home.result := None;
       Home.status := Home.status (Home.state (App.page a));
       Home.statusDetails := Home.statusDetails (Home.state (App.page a)) |} /\
  Home.sockets (App.page a') = Home.sockets (App.page a) /\
  App.loading a' = None /\
  App.pdf a' = None /\
  App.enabled App.ClickResearch a' = false /\
  (forall key shiftKey, App.dispatch (App.KeyDown key shiftKey) a' = a').
Proof.
  intros Hreach Hen a'. pose proof (enabled_offered _ _ Hen) as Hshow.
  simpl in Hshow. unfold App.showsResults in Hshow.
  apply andb_true_iff in Hshow as [Hl _]. apply negb_true_iff in Hl.
  assert (Home.state (App.page a')
          = {| Home.query := ""; Home.isLoading := false;
               Home.error := None; Home.result := None;
               Home.status := Home.status (Home.state (App.page a));
               Home.statusDetails :=
                 Home.statusDetails (Home.state (App.page a)) |}) as Hstate.
  { subst a'. rewrite page_handle. cbn.
    unfold Home.setQuery, Home.setError, Home.setResult.
    simpl. by rewrite Hl. }
  assert (App.reachable a') as Hreach' by (by apply App.reachable_step).
  split; [exact Hstate|]. split; [by subst a'; rewrite page_handle|].
  split; [| split; [| split]].
  - apply reachable_unmounted; [done | by rewrite Hstate].
  - apply reachable_pdf; [done | by rewrite Hstate].
  - apply not_offered. unfold App.offered. by rewrite Hstate.
  - intros key shiftKey. unfold App.dispatch. rewrite Hstate.
    unfold SearchBar.handleKeyDown. cbn [Home.query Home.isLoading].
    change (JS.trim "") with "".
    rewrite (bool_decide_eq_true_2 ("" = "")) by done.
    simpl. by rewrite !andb_false_r.
Qed.

Lemma X18_witness :
  let a := App.handle (App.WsMessage 0 (Some result_frame)) session_open in
  Home.query (Home.state (App.page (App.handle App.ClickNewQuery a))) = "" /\
  App.pdf (App.handle App.ClickNewQuery a) = None.
Proof.
  destruct (X18_new_query_resets
              (App.handle (App.WsMessage 0 (Some result_frame)) session_open))
    as (Hstate & _ & _ & Hpdf & _).
  - apply App.reachable_step; [exact session_open_reachable | reflexivity].
  - reflexivity.
  - split; [by rewrite Hstate | exact Hpdf].
Defined.

(** ** Status frames *)

Lemma handle_status_page (a : App.t) (w : nat) (ws : WebSocket.t) (d : Home.Data) :
  Home.sockets (App.page a) !! w = Some ws ->
  Home.type d = Some "status" ->
  App.page (App.handle (status_event w d) a)
  = {| Home.state :=
         Home.setStatusDetails (JS.or_string (Home.details d) "")
           (Home.setStatus (Home.stage d) (Home.state (App.page a)));
       Home.sockets := Home.sockets (App.page a) |}.
Proof.
  intros Hw Hty. unfold status_event.
  rewrite page_handle, (page_WsMessage w (Some d) a ws Hw).
  unfold Home.onmessage. by rewrite Hty, bool_decide_eq_true_2.
Qed.

(** X19: status frames alone never end a session: after any number of them
    the page has the same sockets, report, error, question and loading flag
    as before; its status is the stage of the last frame and its details
    are that frame's details, or empty when the frame has none. *)
Theorem X19_status_frames_only_update_status
    (a : App.t) (w : nat) (frames : list Home.Data) (d : Home.Data) :
  is_Some (Home.sockets (App.page a) !! w) ->
  Forall (fun f => Home.type f = Some "status") (frames ++ [d]) ->
  let b := handle_all (status_event w <$> frames ++ [d]) a in
  App.page b
  = {| Home.state :=
         {| Home.query := Home.query (Home.state (App.page a));
            Home.isLoading := Home.isLoading (Home.state (App.page a));
            Home.error := Home.error (Home.state (App.page a));
            Home.result := Home.result (Home.state (App.page a));
            Home.status := Home.stage d;
            Home.statusDetails := from_option id "" (Home.details d) |};
       Home.sockets := Home.sockets (App.page a) |}.
Proof.
  intros Hw Hall. revert a Hw.
  induction frames as [|f frames IH]; intros a [ws Hw];
    simpl in Hall; apply Forall_cons in Hall as [Hf Hall].
  - change (handle_all (status_event w <$> [] ++ [d]) a)
      with (App.handle (status_event w d) a).
    cbv zeta. rewrite (handle_status_page a w ws d Hw Hf).
    unfold Home.setStatusDetails, Home.setStatus. simpl. do 2 f_equal.
    unfold JS.or_string. destruct (Home.details d) as [s|]; [|done].
    by case_bool_decide.
  - change (handle_all (status_event w <$> (f :: frames) ++ [d]) a)
      with (handle_all (status_event w <$> frames ++ [d])
              (App.handle (status_event w f) a)).
    pose proof (handle_status_page a w ws f Hw Hf) as Hpage.
    cbv zeta. rewrite IH; [|done | by rewrite Hpage; eexists].
    by rewrite Hpage.
Qed.

Lemma X19_witness :
  Home.status (Home.state (App.page
    (handle_all [status_event 0 (frame (Some "status") "Planning");
                 status_event 0 (frame (Some "status") "Searching")]
       session_open)))
  = "Searching".
Proof.
  assert (is_Some (Home.sockets (App.page session_open) !! 0%nat)) as Hw
    by (by eexists).
  assert (Forall (fun f => Home.type f = Some "status")
            ([frame (Some "status") "Planning"]
             ++ [frame (Some "status") "Searching"])) as Hall
    by (repeat constructor).
  pose proof (X19_status_frames_only_update_status session_open 0
                [frame (Some "status") "Planning"]
                (frame (Some "status") "Searching") Hw Hall) as Hpage.
  apply (f_equal (fun x => Home.status (Home.state x))) in Hpage.
  exact Hpage.
Defined.

(** ** The report on screen *)

(** X20: when a result frame arrives in a reachable state and the results
    panel renders for the response assembled from it (every web source has a
    url that [new URL] accepts), the results panel replaces [LoadingState]
    and its export button is mounted afresh: it is a new instance, idle and
    without an error.  When the panel does not render, the page is removed
    and no export button is mounted. *)
Theorem X20_report_mounts_idle_export_button
    (a : App.t) (w : nat) (ws : WebSocket.t) (d : Home.Data) :
  App.reachable a ->
  App.enabled (App.WsMessage w (Some d)) a = true ->
  Home.sockets (App.page a) !! w = Some ws ->
  Home.type d = Some "result" ->
  let report :=
    {| Research.query := JS.trim (WebSocket.closure_query ws);
       Research.answer := Home.answer d;
       Research.sources := from_option id [] (Home.sources d);
       Research.search_strategy := Some "Real-time Agent Research" |} in
  let a' := App.handle (App.WsMessage w (Some d)) a in
  App.crashed a = false /\
  App.pdf a = None /\
  (ResultsDisplay.renders (App.canParse a) report = true ->
   App.crashed a' = false /\
   App.showsResults (Home.state (App.page a')) = true /\
   Home.result (Home.state (App.page a')) = Some report /\
   App.loading a' = None /\
   App.pdf a'
   = Some {| PDFExportButton.instance := App.mounts a;
             PDFExportButton.isGenerating := false;
             PDFExportButton.error := None |} /\
   App.mounts a' = S (App.mounts a) /\
   App.enabled App.ClickPdf a' = true) /\
  (ResultsDisplay.renders (App.canParse a) report = false ->
   App.crashed a' = true /\
   App.pdf a' = None /\
   App.mounts a' = App.mounts a /\
   App.enabled App.ClickPdf a' = false).
Proof.
  intros Hreach Hen Hw Hty report a'.
  pose proof (reachable_one_channel a Hreach) as Hone.
  pose proof (enabled_offered _ _ Hen) as Hopen.
  apply readyState_is_Some in Hopen as (ws' & Hw' & Hr).
  assert (ws' = ws) as -> by congruence.
  assert (WebSocket.live ws = true) as Hlive
    by (unfold WebSocket.live; by rewrite Hr).
  pose proof (live_loading _ w ws Hone Hw Hlive) as Hl.
  assert (App.crashed a = false) as Hcr.
  { destruct (App.crashed a) eqn:E; [|done].
    by rewrite (reachable_crashed_idle a Hreach E) in Hl. }
  assert (App.pdf a = None) as Hpdf.
  { apply reachable_pdf; [done|]. unfold App.showsResults. by rewrite Hl. }
  pose proof (dispatch_result a w ws d Hw Hty) as Hpage.
  change (assembled (WebSocket.closure_query ws) d) with report in Hpage.
  set (a1 := App.dispatch (App.WsMessage w (Some d)) a) in *.
  assert (App.crashed a1 = false) as Hcr1
    by (subst a1; by rewrite dispatch_crashed).
  assert (App.pdf a1 = None /\ App.mounts a1 = App.mounts a) as [Hpdf1 Hm1]
    by (by split).
  assert (App.showsResults (Home.state (App.page a1)) = true) as Hshow
    by (by rewrite Hpage).
  assert (App.throws a1 = negb (ResultsDisplay.renders (App.canParse a) report))
    as Hthrows.
  { unfold App.throws. rewrite Hshow, Hpage.
    cbn [Home.state Home.result andb]. subst a1. reflexivity. }
  split; [exact Hcr|]. split; [exact Hpdf|]. split.
  - intros Hren. rewrite Hren in Hthrows. subst a'. unfold App.handle.
    fold a1. rewrite (render_normal a1 Hcr1 Hthrows).
    unfold App.enabled, App.offered.
    cbn [App.crashed App.page App.loading App.pdf App.mounts App.user].
    rewrite Hshow, Hpdf1, Hm1, Hpage. unfold App.render_loading.
    cbn. by repeat split.
  - intros Hren. rewrite Hren in Hthrows. subst a'. unfold App.handle.
    fold a1. rewrite (render_throws a1 Hcr1 Hthrows).
    unfold App.enabled.
    cbn [App.crashed App.pdf App.mounts App.user]. by repeat split.
Qed.

Lemma X20_witness :
  let a' := App.handle (App.WsMessage 0 (Some result_frame)) session_open in
  let a'' := App.handle (App.WsMessage 0 (Some relative_url_frame))
               session_open in
  (App.pdf a'
   = Some {| PDFExportButton.instance := 0;
             PDFExportButton.isGenerating := false;
             PDFExportButton.error := None |} /\
   App.enabled App.ClickPdf a' = true) /\
  (App.crashed a'' = true /\ App.pdf a'' = None).
Proof.
  assert (App.reachable session_open) as Hreach
    by exact session_open_reachable.
  set (ws := {| WebSocket.readyState := WebSocket.OPEN;
                WebSocket.sent := [request " gpu kernels "];
                WebSocket.closure_query := " gpu kernels " |}).
  destruct (X20_report_mounts_idle_export_button session_open 0 ws result_frame
              Hreach eq_refl eq_refl eq_refl) as (_ & _ & Hgood & _).
  destruct (X20_report_mounts_idle_export_button session_open 0 ws
              relative_url_frame Hreach eq_refl eq_refl eq_refl)
    as (_ & _ & _ & Hbad).
  destruct (Hgood eq_refl) as (_ & _ & _ & _ & Hpdf & _ & Hen).
  destruct (Hbad eq_refl) as (Hc & Hp & _).
  split; [split; [exact Hpdf | exact Hen] | split; [exact Hc | exact Hp]].
Defined.
